(** * svetofor: the shared traffic light of [src/main.py]

    A shallow embedding of [TrafficLightManager] and of the three segments of
    [websocket_endpoint] (session opening, one received frame, session
    teardown), followed by the properties of the connection and controller
    bookkeeping.

    Conventions of the embedding.
    - A [WebSocket] object is compared by identity in Python; here it is a
      handle (a number) with decidable equality.
    - [self] is threaded explicitly: an action of type [M A] reads the
      manager, may change it, logs every [send_text] it attempts and either
      returns a value or raises.
    - The transport is a parameter: [send_ok k ws] tells whether the [k]-th
      [send_text] attempted since start-up, addressed to [ws], goes through,
      and [accept_ok ws] whether [ws.accept()] does.  [clock k] is the text
      that [datetime.now().strftime("%H:%M:%S")] yields at that moment.
    - Each handler runs to completion before the next event is taken: the
      interleaving of coroutines at [await] points is not represented. *)

From stdpp Require Import base decidable option list strings.

Open Scope string_scope.
Open Scope list_scope.

(** ** Data *)

Definition WebSocket := nat.

Record TrafficLightManager := mkManager {
  active_connections : list WebSocket;
  controller : option WebSocket;
  current_color : string;
  controller_id : option string
}.

(** [TrafficLightManager.__init__] *)
Definition init : TrafficLightManager :=
  {| active_connections := [];
     controller := None;
     current_color := "none";
     controller_id := None |}.

(** The three dictionaries handed to [json.dumps]. *)
Inductive Message :=
| state_update (color : string) (is_controller : bool)
               (ctrl_id : option string) (timestamp : string)
| color_change (color : string) (timestamp : string)
| user_update (total_users : nat) (ctrl_id : option string).

(** One call of [send_text], with its outcome and with the colour that the
    manager held when the call was made. *)
Record Send := mkSend {
  recipient : WebSocket;
  payload : Message;
  delivered : bool;
  color_at_send : string
}.

#[global] Instance Message_eq_dec : EqDecision Message.
Proof. solve_decision. Defined.

#[global] Instance Send_eq_dec : EqDecision Send.
Proof. solve_decision. Defined.

Inductive Exn :=
| WebSocketDisconnect
| RuntimeError
| ValueError
| KeyError.

Inductive Outcome (A : Type) :=
| Ret (a : A)
| Raise (e : Exn).
Arguments Ret {A} a.
Arguments Raise {A} e.

(** An action: the number of sends attempted so far and the manager go in;
    the outcome, the manager and the sends attempted by the action come out. *)
Definition M (A : Type) : Type :=
  nat -> TrafficLightManager -> Outcome A * TrafficLightManager * list Send.

Definition ret {A} (a : A) : M A := fun _ m => (Ret a, m, []).

Definition raise {A} (e : Exn) : M A := fun _ m => (Raise e, m, []).

Definition bind {A B} (c : M A) (k : A -> M B) : M B := fun n m =>
  match c n m with
  | (Ret a, m1, t1) =>
      let '(r, m2, t2) := k a (length t1 + n) m1 in (r, m2, t1 ++ t2)
  | (Raise e, m1, t1) => (Raise e, m1, t1)
  end.

Notation "x <- c ;; k" := (bind c (fun x => k))
  (at level 20, c at level 99, k at level 200, only parsing).
Notation "c ;; k" := (bind c (fun _ => k))
  (at level 100, k at level 200, only parsing, right associativity).

(** [try: c except: h] with a bare [except]. *)
Definition try_except {A} (c : M A) (h : M A) : M A := fun n m =>
  match c n m with
  | (Ret a, m1, t1) => (Ret a, m1, t1)
  | (Raise _, m1, t1) =>
      let '(r, m2, t2) := h (length t1 + n) m1 in (r, m2, t1 ++ t2)
  end.

Definition get {A} (field : TrafficLightManager -> A) : M A :=
  fun _ m => (Ret (field m), m, []).

Definition modify (f : TrafficLightManager -> TrafficLightManager) : M unit :=
  fun _ m => (Ret tt, f m, []).

Definition set_active_connections (l : list WebSocket) m :=
  {| active_connections := l;
     controller := controller m;
     current_color := current_color m;
     controller_id := controller_id m |}.

Definition set_controller (c : option WebSocket) m :=
  {| active_connections := active_connections m;
     controller := c;
     current_color := current_color m;
     controller_id := controller_id m |}.

Definition set_current_color (color : string) m :=
  {| active_connections := active_connections m;
     controller := controller m;
     current_color := color;
     controller_id := controller_id m |}.

Definition set_controller_id (i : option string) m :=
  {| active_connections := active_connections m;
     controller := controller m;
     current_color := current_color m;
     controller_id := i |}.

(** [list.remove(x)]: drops the first item equal to [x]; [None] stands for
    the [ValueError] of a list without such an item. *)
Fixpoint list_remove (x : WebSocket) (l : list WebSocket)
  : option (list WebSocket) :=
  match l with
  | [] => None
  | y :: l' =>
      if decide (x = y) then Some l' else cons y <$> list_remove x l'
  end.

(** [self.active_connections.remove(websocket)] *)
Definition remove_connection (websocket : WebSocket) : M unit := fun _ m =>
  match list_remove websocket (active_connections m) with
  | Some l => (Ret tt, set_active_connections l m, [])
  | None => (Raise ValueError, m, [])
  end.

(** [for connection in self.active_connections: body]. The list iterator
    keeps an index into the live list and stops when the index is past its
    end, so a body that shortens the list shifts the items still to come.
    [fuel] bounds the number of rounds. *)
Fixpoint for_connection_from (fuel i : nat) (body : WebSocket -> M unit)
  : M unit := fun n m =>
  match fuel with
  | 0 => (Ret tt, m, [])
  | S fuel' =>
      match active_connections m !! i with
      | None => (Ret tt, m, [])
      | Some connection =>
          (body connection ;; for_connection_from fuel' (S i) body) n m
      end
  end.

(** No body below lengthens the list, so its length at entry is fuel enough
    (see [for_connection_from_fuel]). *)
Definition for_connection (body : WebSocket -> M unit) : M unit := fun n m =>
  for_connection_from (length (active_connections m)) 0 body n m.

Section Manager.

Variable send_ok : nat -> WebSocket -> bool.
Variable accept_ok : WebSocket -> bool.
Variable clock : nat -> string.

(** [await websocket.accept()] *)
Definition accept (websocket : WebSocket) : M unit := fun _ m =>
  if accept_ok websocket then (Ret tt, m, []) else (Raise RuntimeError, m, []).

(** [await websocket.send_text(json.dumps(data))] *)
Definition send_text (websocket : WebSocket) (data : Message) : M unit :=
  fun n m =>
  if send_ok n websocket
  then (Ret tt, m, [mkSend websocket data true (current_color m)])
  else (Raise WebSocketDisconnect, m,
        [mkSend websocket data false (current_color m)]).

(** [datetime.now().strftime("%H:%M:%S")] *)
Definition timestamp : M string := fun n m => (Ret (clock n), m, []).

(** ** [TrafficLightManager] *)

(** Lines 48-59. The failure of the send is swallowed ([except: pass]). *)
Definition send_state_update (websocket : WebSocket) (is_controller : bool)
  : M unit :=
  color <- get current_color ;;
  cid <- get controller_id ;;
  ts <- timestamp ;;
  let state_data := state_update color is_controller cid ts in
  try_except (send_text websocket state_data) (ret tt).

(** Lines 75-86. [total_users] is computed once, before the loop. *)
Definition broadcast_user_update : M unit :=
  conns <- get active_connections ;;
  cid <- get controller_id ;;
  let user_data := user_update (length conns) cid in
  for_connection (fun connection =>
    try_except (send_text connection user_data) (ret tt)).

(** Lines 19-30. The first socket to find no controller becomes it, and
    only here is [controller_id] given a value. *)
Definition connect (websocket : WebSocket) (user_id : string) : M bool :=
  accept websocket ;;
  modify (fun m =>
    set_active_connections (active_connections m ++ [websocket]) m) ;;
  ctrl <- get controller ;;
  let is_controller := bool_decide (ctrl = None) in
  (if is_controller
   then modify (set_controller (Some websocket)) ;;
        modify (set_controller_id (Some user_id))
   else ret tt) ;;
  send_state_update websocket is_controller ;;
  broadcast_user_update ;;
  ret is_controller.

(** Lines 32-46. [if self.active_connections:] is the test for a non-empty
    list; the promoted socket is [self.active_connections[0]]. *)
Definition disconnect (websocket : WebSocket) : M bool :=
  conns <- get active_connections ;;
  if bool_decide (websocket ∈ conns) then
    remove_connection websocket ;;
    ctrl <- get controller ;;
    if bool_decide (Some websocket = ctrl) then
      modify (set_controller None) ;;
      modify (set_controller_id None) ;;
      remaining <- get active_connections ;;
      match remaining with
      | first :: _ =>
          modify (set_controller (Some first)) ;;
          ret true
      | [] => ret false
      end
    else ret false
  else ret false.

(** Lines 61-73. The [except] clause removes the socket from the list that
    the loop is iterating over. *)
Definition broadcast_color_change (color : string) : M unit :=
  modify (set_current_color color) ;;
  ts <- timestamp ;;
  let color_data := color_change color ts in
  for_connection (fun connection =>
    try_except (send_text connection color_data)
               (remove_connection connection)).

(** Lines 88-93. *)
Definition broadcast_new_controller : M unit :=
  ctrl <- get controller ;;
  match ctrl with
  | Some c =>
      send_state_update c true ;;
      for_connection (fun connection =>
        if bool_decide (connection <> c)
        then send_state_update connection false
        else ret tt)
  | None => ret tt
  end.

(** [get_status], lines 126-132: the dictionary served at [/status]. *)
Record Status := mkStatus {
  status_current_color : string;
  status_total_users : nat;
  status_controller_id : option string
}.

Definition get_status (m : TrafficLightManager) : Status :=
  {| status_current_color := current_color m;
     status_total_users := length (active_connections m);
     status_controller_id := controller_id m |}.

(** ** [websocket_endpoint]

    The coroutine is split at its three entry points: the call of [connect]
    when the session opens, the body of the [while True] loop for one frame
    that [receive_text] returned, and the [except WebSocketDisconnect]
    handler. [message_data] is the object that [json.loads] produced, with
    string values. *)

Fixpoint dict_get (message_data : list (string * string)) (key : string)
  : option string :=
  match message_data with
  | [] => None
  | (k, v) :: rest => if decide (k = key) then Some v else dict_get rest key
  end.

(** [message_data[key]] *)
Definition getitem (message_data : list (string * string)) (key : string)
  : M string :=
  match dict_get message_data key with
  | Some v => ret v
  | None => raise KeyError
  end.

(** Line 106, outside the [try]. *)
Definition websocket_endpoint_connect (websocket : WebSocket)
  (user_id : string) : M unit :=
  connect websocket user_id ;;
  ret tt.

(** Lines 111-117. [and] does not look at the controller unless the type
    matches, nor at the colour unless both tests pass. *)
Definition websocket_endpoint_receive (websocket : WebSocket)
  (message_data : list (string * string)) : M unit :=
  type <- getitem message_data "type" ;;
  ctrl <- get controller ;;
  if bool_decide (type = "color_change") && bool_decide (Some websocket = ctrl)
  then
    color <- getitem message_data "color" ;;
    if bool_decide (color ∈ ["red"; "yellow"; "green"; "none"])
    then broadcast_color_change color
    else ret tt
  else ret tt.

(** Lines 119-123. *)
Definition websocket_endpoint_disconnect (websocket : WebSocket) : M unit :=
  new_controller_assigned <- disconnect websocket ;;
  (if new_controller_assigned : bool
   then broadcast_new_controller
   else ret tt) ;;
  broadcast_user_update.

(** What reaches the server from outside. *)
Inductive Event :=
| Connect (websocket : WebSocket) (user_id : string)
| Receive (websocket : WebSocket) (message_data : list (string * string))
| Disconnect (websocket : WebSocket).

Definition handle (e : Event) : M unit :=
  match e with
  | Connect websocket user_id => websocket_endpoint_connect websocket user_id
  | Receive websocket message_data =>
      websocket_endpoint_receive websocket message_data
  | Disconnect websocket => websocket_endpoint_disconnect websocket
  end.

(** The server over a sequence of events. An exception that leaves a handler
    ends that session only; the manager lives on. *)
Fixpoint run (events : list Event) (n : nat) (m : TrafficLightManager)
  : TrafficLightManager * list Send :=
  match events with
  | [] => (m, [])
  | e :: events' =>
      let '(_, m1, t1) := handle e n m in
      let '(m2, t2) := run events' (length t1 + n) m1 in
      (m2, t1 ++ t2)
  end.

(** ** The session coroutine as a whole

    [websocket_endpoint], lines 104-123, for one client whose frames arrive
    while no other session moves. A frame is what [receive_text] and
    [json.loads] make of it: an object, a text that is not JSON
    ([json.loads] raises a [ValueError]), or the close of the connection
    ([receive_text] raises [WebSocketDisconnect]). JSON texts that are not
    objects are not represented. *)
Inductive Frame :=
| Text (message_data : list (string * string))
| Garbage
| Closed.

(** Where the coroutine stands when the frames are used up: suspended in
    [receive_text], or returned. *)
Inductive Session :=
| Waiting
| Finished.

(** The [while True] loop, lines 109-117. *)
Fixpoint receive_loop (websocket : WebSocket) (frames : list Frame)
  : M Session :=
  match frames with
  | [] => ret Waiting
  | Text message_data :: frames' =>
      websocket_endpoint_receive websocket message_data ;;
      receive_loop websocket frames'
  | Garbage :: _ => raise ValueError
  | Closed :: _ => raise WebSocketDisconnect
  end.

(** [try: c except WebSocketDisconnect: h]: any other exception passes. *)
Definition except_WebSocketDisconnect {A} (c : M A) (h : M A) : M A :=
  fun n m =>
  match c n m with
  | (Raise WebSocketDisconnect, m1, t1) =>
      let '(r, m2, t2) := h (length t1 + n) m1 in (r, m2, t1 ++ t2)
  | other => other
  end.

Definition websocket_endpoint (websocket : WebSocket) (user_id : string)
  (frames : list Frame) : M Session :=
  connect websocket user_id ;;
  except_WebSocketDisconnect
    (receive_loop websocket frames)
    (websocket_endpoint_disconnect websocket ;; ret Finished).

(** ** The script of the page

    The JavaScript of [html_content], lines 446-571, over the part of the
    page it writes to: the flag [isController], the class names of the
    three lamps, the two status texts, the role badge (by its class) and
    the [display] of the control buttons. *)
Record Page := mkPage {
  isController : bool;
  redLight : string;
  yellowLight : string;
  greenLight : string;
  userCount : nat;
  controllerName : string;
  userRole : string;
  controls : string
}.

(** The page as the HTML has it before any message (lines 409-443). *)
Definition fresh_page : Page :=
  {| isController := false;
     redLight := "light off";
     yellowLight := "light off";
     greenLight := "light off";
     userCount := 0;
     controllerName := "Hech kim";
     userRole := "";
     controls := "none" |}.

(** [updateLights], lines 514-532. *)
Definition updateLights (color : string) (page : Page) : Page :=
  {| isController := isController page;
     redLight :=
       if decide (color = "red") then "light red" else "light off";
     yellowLight :=
       if decide (color = "red") then "light off"
       else if decide (color = "yellow") then "light yellow"
       else "light off";
     greenLight :=
       if decide (color = "red") then "light off"
       else if decide (color = "yellow") then "light off"
       else if decide (color = "green") then "light green"
       else "light off";
     userCount := userCount page;
     controllerName := controllerName page;
     userRole := userRole page;
     controls := controls page |}.

(** [updateUserRole], lines 534-545. *)
Definition updateUserRole (isCtrl : bool) (page : Page) : Page :=
  {| isController := isController page;
     redLight := redLight page;
     yellowLight := yellowLight page;
     greenLight := greenLight page;
     userCount := userCount page;
     controllerName := controllerName page;
     userRole := if isCtrl then "controller-badge" else "observer-badge";
     controls := if isCtrl then "flex" else "none" |}.

Definition set_isController (flag : bool) (page : Page) : Page :=
  {| isController := flag;
     redLight := redLight page;
     yellowLight := yellowLight page;
     greenLight := greenLight page;
     userCount := userCount page;
     controllerName := controllerName page;
     userRole := userRole page;
     controls := controls page |}.

(** [data.controller_id || 'Hech kim']: [null] and the empty string are
    both falsy. *)
Definition controller_name_text (ctrl_id : option string) : string :=
  match ctrl_id with
  | None => "Hech kim"
  | Some name => if decide (name = "") then "Hech kim" else name
  end.

(** [ws.onmessage], lines 469-488. *)
Definition onmessage (data : Message) (page : Page) : Page :=
  match data with
  | state_update color is_controller _ _ =>
      updateUserRole is_controller
        (updateLights color (set_isController is_controller page))
  | color_change color _ => updateLights color page
  | user_update total_users ctrl_id =>
      {| isController := isController page;
         redLight := redLight page;
         yellowLight := yellowLight page;
         greenLight := greenLight page;
         userCount := total_users;
         controllerName := controller_name_text ctrl_id;
         userRole := userRole page;
         controls := controls page |}
  end.

(** [changeColor], lines 505-512: the frame that is sent, if one is.
    [open] stands for [ws && ws.readyState === WebSocket.OPEN]. *)
Definition changeColor (color : string) (open : bool) (page : Page)
  : option (list (string * string)) :=
  if open && isController page
  then Some [("type", "color_change"); ("color", color)]
  else None.

(** The [keydown] listener, lines 554-571. *)
Definition keydown (key : string) (open : bool) (page : Page)
  : option (list (string * string)) :=
  if negb (isController page) then None
  else if decide (key = "1") then changeColor "red" open page
  else if decide (key = "2") then changeColor "yellow" open page
  else if decide (key = "3") then changeColor "green" open page
  else if decide (key = "0") then changeColor "none" open page
  else None.

(** The four buttons of the page, lines 433-436. *)
Definition button_colors : list string := ["red"; "yellow"; "green"; "none"].

(** The page of the socket [c] after the sends of a log that reached it. *)
Definition receive_log (c : WebSocket) (t : list Send) (page : Page) : Page :=
  foldl (fun page s =>
           if delivered s && bool_decide (recipient s = c)
           then onmessage (payload s) page
           else page)
        page t.

(** ** Sample transports and states *)

(** A transport that delivers everything, one that delivers nothing, and one
    on which the sends to a single socket fail. *)
Definition transport_up : nat -> WebSocket -> bool := fun _ _ => true.

Definition transport_down : nat -> WebSocket -> bool := fun _ _ => false.

Definition transport_down_for (dead : WebSocket) : nat -> WebSocket -> bool :=
  fun _ websocket => negb (bool_decide (websocket = dead)).

(** A transport on which the sends to one socket fail from the attempt
    numbered [k] on. *)
Definition transport_lost_from (k : nat) (dead : WebSocket)
  : nat -> WebSocket -> bool :=
  fun n websocket =>
    negb (bool_decide (websocket = dead) && bool_decide (k <= n)).

Definition accept_all : WebSocket -> bool := fun _ => true.

Definition noon : nat -> string := fun _ => "12:00:00".

Definition alice_bob_carol : list Event :=
  [Connect 1 "alice"; Connect 2 "bob"; Connect 3 "carol"].

(** Alice, Bob and Carol have joined in this order; Alice controls. *)
Definition three_connected : TrafficLightManager :=
  {| active_connections := [1; 2; 3];
     controller := Some 1;
     current_color := "none";
     controller_id := Some "alice" |}.

Definition red_request : list (string * string) :=
  [("type", "color_change"); ("color", "red")].

(** Alice joins, Bob joins, Alice asks for red. The five sends of the two
    joins are the attempts 0 to 4; the colour broadcast starts at 5. *)
Definition alice_asks_red : list Event :=
  [Connect 1 "alice"; Connect 2 "bob"; Receive 1 red_request].

Definition blue_request : list (string * string) :=
  [("type", "color_change"); ("color", "blue")].

(** ** Vocabulary of the properties *)

(** The controller, when there is one, is registered, and there is none
    exactly when nobody is registered. *)
Definition controller_invariant (m : TrafficLightManager) : Prop :=
  (forall c, controller m = Some c -> c ∈ active_connections m) /\
  (controller m = None <-> active_connections m = []).

(** Events that open or tear down a session. *)
Definition membership (e : Event) : Prop :=
  match e with
  | Connect _ _ | Disconnect _ => True
  | Receive _ _ => False
  end.

(** The sockets of the [Connect] events, oldest first. *)
Fixpoint connects (events : list Event) : list WebSocket :=
  match events with
  | [] => []
  | Connect websocket _ :: events' => websocket :: connects events'
  | _ :: events' => connects events'
  end.

(** [a] opened its session before [b] did. *)
Definition joined_before (events : list Event) (a b : WebSocket) : Prop :=
  exists i j, i < j /\ connects events !! i = Some a
                   /\ connects events !! j = Some b.

(** The colours the endpoint lets through. *)
Definition recognised (color : string) : Prop :=
  color ∈ ["red"; "yellow"; "green"; "none"].

(** One attempt per socket of [l], in the order of [l], the first being the
    [n]-th attempt overall, all made while the manager holds [color]: the
    log of a loop in which a failed send changes nothing. *)
Fixpoint sends_to (data : Message) (color : string) (n : nat)
  (l : list WebSocket) : list Send :=
  match l with
  | [] => []
  | c :: l' =>
      mkSend c data (send_ok n c) color :: sends_to data color (S n) l'
  end.

(** One round of the loop of [broadcast_color_change]. *)
Definition color_change_round (color_data : Message) (connection : WebSocket)
  : M unit :=
  try_except (send_text connection color_data)
             (remove_connection connection).

(** The log agrees with the transport: its [k]-th entry, which is attempt
    number [k + n], was delivered exactly if the transport says so. *)
Definition faithful (n : nat) (t : list Send) : Prop :=
  forall k s, t !! k = Some s -> delivered s = send_ok (k + n) (recipient s).

(** The log of the loop of [broadcast_new_controller]: every socket of [l]
    other than the controller [p] is told that it is not the controller. *)
Fixpoint role_corrections (p : WebSocket) (color : string)
  (cid : option string) (n : nat) (l : list WebSocket) : list Send :=
  match l with
  | [] => []
  | c :: l' =>
      if bool_decide (c <> p)
      then mkSend c (state_update color false cid (clock n)) (send_ok n c)
             color
           :: role_corrections p color cid (S n) l'
      else role_corrections p color cid n l'
  end.

(** A loop over a list that is fixed beforehand. *)
Fixpoint for_list (body : WebSocket -> M unit) (l : list WebSocket)
  : M unit :=
  match l with
  | [] => ret tt
  | c :: l' => body c ;; for_list body l'
  end.

(** The identity that the manager reports is that of the controller: there
    is none without a controller, and a reported one is the [user_id] under
    which the controller opened its session in [past]. *)
Definition identity_sound (past : list Event) (m : TrafficLightManager)
  : Prop :=
  (controller m = None -> controller_id m = None) /\
  (forall user_id, controller_id m = Some user_id ->
     exists websocket,
       controller m = Some websocket /\ Connect websocket user_id ∈ past).

(** An event that is neither the opening of the session of [z] nor a frame
    from [z]. *)
Definition quiet (z : WebSocket) (e : Event) : Prop :=
  match e with
  | Connect w _ | Receive w _ => w <> z
  | Disconnect _ => True
  end.

(** The session of [c] is open at the end of [events]: it was opened, the
    socket was accepted, and no teardown of it followed. *)
Definition live (events : list Event) (c : WebSocket) : Prop :=
  exists i user_id,
    events !! i = Some (Connect c user_id)
    /\ accept_ok c = true
    /\ Disconnect c ∉ drop (S i) events.

(** The colour broadcast over a list without repetition, socket by socket:
    a socket whose send fails is dropped from the list, and the socket
    after it is passed over, neither sent to nor dropped. [skip] tells
    that the send before failed, [color] is the colour that the manager
    holds meanwhile. The result is the log and the list that is left. *)
Fixpoint color_walk (data : Message) (color : string) (skip : bool)
  (n : nat) (l : list WebSocket) : list Send * list WebSocket :=
  match l with
  | [] => ([], [])
  | c :: rest =>
      if skip then
        let '(t, kept) := color_walk data color false n rest in
        (t, c :: kept)
      else if send_ok n c then
        let '(t, kept) := color_walk data color false (S n) rest in
        (mkSend c data true color :: t, c :: kept)
      else
        let '(t, kept) := color_walk data color true (S n) rest in
        (mkSend c data false color :: t, kept)
  end.

(** A frame that the loop of the endpoint reads without a [KeyError]: it
    has a type, and a colour if it is a colour request. *)
Definition complete (message_data : list (string * string)) : Prop :=
  exists type,
    dict_get message_data "type" = Some type
    /\ (type = "color_change" -> is_Some (dict_get message_data "color")).

(** A frame on which the loop raises something other than
    [WebSocketDisconnect]: a text that is not JSON, or an object without a
    type. *)
Definition crashing (f : Frame) : Prop :=
  f = Garbage \/ exists message_data,
                  f = Text message_data
                  /\ dict_get message_data "type" = None.

(** A page that shows the colour [color], the role [flag], [total] users
    and the controller name [name]. *)
Definition shown (color : string) (flag : bool) (total : nat)
  (name : string) : Page :=
  {| isController := flag;
     redLight :=
       if decide (color = "red") then "light red" else "light off";
     yellowLight :=
       if decide (color = "yellow") then "light yellow" else "light off";
     greenLight :=
       if decide (color = "green") then "light green" else "light off";
     userCount := total;
     controllerName := name;
     userRole := if flag then "controller-badge" else "observer-badge";
     controls := if flag then "flex" else "none" |}.

(** The page that tells the truth about the manager to the socket [c]. *)
Definition page_of (m : TrafficLightManager) (c : WebSocket) : Page :=
  shown (current_color m) (bool_decide (controller m = Some c))
        (length (active_connections m))
        (controller_name_text (controller_id m)).

(** Alice's own send failed during a colour broadcast: she is controller
    and no longer on the list. *)
Definition alice_fell_off : TrafficLightManager :=
  {| active_connections := [2; 3];
     controller := Some 1;
     current_color := "red";
     controller_id := Some "alice" |}.

Definition life_goes_on : list Event :=
  [Disconnect 1; Connect 4 "dave"; Receive 2 red_request; Disconnect 2].

(** A page that holds itself for the controller. *)
Definition controller_page : Page := shown "none" true 1 "alice".

(** ** [list.remove] *)

Lemma list_remove_None x l : list_remove x l = None <-> x ∉ l.
Proof.
  induction l as [|y l IH]; simpl.
  - split; [intros _; apply not_elem_of_nil | done].
  - rewrite not_elem_of_cons. case_decide as Hxy.
    + split; [done | intros [? _]; done].
    + destruct (list_remove x l); simpl.
      * split; [done | intros [_ Hx]]. by apply IH in Hx.
      * split; [intros _ | done]. split; [done | by apply IH].
Qed.

Lemma list_remove_Some x l : x ∈ l -> is_Some (list_remove x l).
Proof.
  intros Hx. destruct (list_remove x l) eqn:E; [by eexists |].
  by apply list_remove_None in E.
Qed.

Lemma list_remove_sublist x l l' :
  list_remove x l = Some l' -> l' `sublist_of` l.
Proof.
  revert l'. induction l as [|y l IH]; intros l'; simpl; [done |].
  case_decide.
  - intros [= <-]. by apply sublist_cons.
  - destruct (list_remove x l) as [k|]; simpl; [|done].
    intros [= <-]. apply sublist_skip. by apply IH.
Qed.

Lemma list_remove_length x l l' :
  list_remove x l = Some l' -> length l = S (length l').
Proof.
  revert l'. induction l as [|y l IH]; intros l'; simpl; [done |].
  case_decide.
  - by intros [= <-].
  - destruct (list_remove x l) as [k|]; simpl; [|done].
    intros [= <-]. simpl. f_equal. by apply IH.
Qed.

Lemma list_remove_other x y l l' :
  list_remove x l = Some l' -> y <> x -> y ∈ l -> y ∈ l'.
Proof.
  revert l'. induction l as [|z l IH]; intros l'; simpl; [done |].
  case_decide as Hxz.
  - intros [= <-] Hne [->|Hy]%elem_of_cons; [congruence | done].
  - destruct (list_remove x l) as [k|]; simpl; [|done].
    intros [= <-] Hne [->|Hy]%elem_of_cons.
    + apply list_elem_of_here.
    + apply list_elem_of_further. by apply IH.
Qed.

Lemma list_remove_NoDup x l l' :
  NoDup l -> list_remove x l = Some l' -> (x ∉ l') /\ NoDup l'.
Proof.
  intros Hnd Hrm. split.
  - revert l' Hrm. induction Hnd as [|y l Hy Hnd IH]; intros l'; simpl;
      [done |].
    case_decide as Hxy.
    + intros [= <-]. by subst.
    + destruct (list_remove x l) as [k|]; simpl; [|done].
      intros [= <-]. rewrite not_elem_of_cons. split; [done | by apply IH].
  - eauto using sublist_NoDup, list_remove_sublist.
Qed.

(** ** The loop over [active_connections] *)

(** With a body that never lengthens the list, the loop has left through the
    exhausted iterator by the time the fuel is spent: more fuel changes
    nothing. *)
Lemma for_connection_from_fuel body fuel extra i n m :
  (forall c n m, length (active_connections (body c n m).1.2)
                 <= length (active_connections m)) ->
  length (active_connections m) <= i + fuel ->
  for_connection_from (fuel + extra) i body n m
  = for_connection_from fuel i body n m.
Proof.
  intros Hbody. revert i n m.
  induction fuel as [|fuel IH]; intros i n m Hlen.
  - assert (active_connections m !! i = None) as Hi
      by (apply lookup_ge_None; lia).
    destruct extra; simpl; [done | by rewrite Hi].
  - simpl. destruct (active_connections m !! i) as [c|]; [|done].
    unfold bind. specialize (Hbody c n m).
    destruct (body c n m) as [[[[]|e] m1] t1]; [|done].
    simpl in Hbody. rewrite IH; [done | lia].
Qed.

(** A body that leaves the manager alone sees the list as it was at entry. *)
Lemma for_connection_from_fixed body fuel i n m :
  (forall c n m, (body c n m).1.2 = m) ->
  length (active_connections m) <= i + fuel ->
  for_connection_from fuel i body n m
  = for_list body (drop i (active_connections m)) n m.
Proof.
  intros Hbody. revert i n m.
  induction fuel as [|fuel IH]; intros i n m Hlen.
  - rewrite drop_ge by lia. done.
  - simpl. destruct (active_connections m !! i) as [c|] eqn:Hi.
    + rewrite (drop_S _ _ _ Hi). simpl. unfold bind.
      specialize (Hbody c n m).
      destruct (body c n m) as [[[[]|e] m1] t1]; [|done].
      simpl in Hbody. subst m1. rewrite IH; [done | lia].
    + apply lookup_ge_None in Hi. rewrite drop_ge by lia. done.
Qed.

Lemma for_connection_fixed body n m :
  (forall c n m, (body c n m).1.2 = m) ->
  for_connection body n m = for_list body (active_connections m) n m.
Proof.
  intros Hbody. unfold for_connection.
  rewrite for_connection_from_fixed; [done | done | lia].
Qed.

(** ** Sends that swallow their failure *)

Lemma send_state_update_eq websocket is_controller n m :
  send_state_update websocket is_controller n m
  = (Ret tt, m,
     [mkSend websocket
        (state_update (current_color m) is_controller (controller_id m)
                      (clock n))
        (send_ok n websocket) (current_color m)]).
Proof.
  unfold send_state_update, bind, get, timestamp, try_except, send_text, ret.
  simpl. by destruct (send_ok n websocket).
Qed.

Lemma for_list_sends data l n m :
  for_list (fun connection =>
              try_except (send_text connection data) (ret tt)) l n m
  = (Ret tt, m, sends_to data (current_color m) n l).
Proof.
  revert n. induction l as [|c l IH]; intros n; [done |].
  simpl. unfold bind, try_except at 1, send_text at 1, ret at 1.
  destruct (send_ok n c); simpl; by rewrite IH.
Qed.

Lemma broadcast_user_update_eq n m :
  broadcast_user_update n m
  = (Ret tt, m,
     sends_to (user_update (length (active_connections m)) (controller_id m))
              (current_color m) n (active_connections m)).
Proof.
  unfold broadcast_user_update, bind, get. simpl.
  rewrite for_connection_fixed.
  - by rewrite for_list_sends.
  - intros c n' m'. unfold try_except, send_text, ret.
    by destruct (send_ok n' c).
Qed.

Lemma elem_of_sends_to data color l n s :
  s ∈ sends_to data color n l <->
  exists k c,
    l !! k = Some c /\ s = mkSend c data (send_ok (k + n) c) color.
Proof.
  revert n. induction l as [|c l IH]; intros n; simpl.
  - rewrite elem_of_nil. split; [done | by intros (k & c & ? & _)].
  - rewrite elem_of_cons, IH. split.
    + intros [->|(k & c' & Hk & ->)].
      * by exists 0, c.
      * exists (S k), c'. split; [done |]. by rewrite Nat.add_succ_comm.
    + intros ([|k] & c' & Hk & ->); simpl in Hk.
      * left. by injection Hk as ->.
      * right. exists k, c'. split; [done |]. by rewrite Nat.add_succ_comm.
Qed.

(** ** [connect] and [disconnect] unfolded *)

Lemma connect_refused websocket user_id n m :
  accept_ok websocket = false ->
  connect websocket user_id n m = (Raise RuntimeError, m, []).
Proof. intros H. unfold connect, bind, accept. by rewrite H. Qed.

Lemma connect_accepted websocket user_id n m :
  accept_ok websocket = true ->
  let joined :=
    set_active_connections (active_connections m ++ [websocket]) m in
  let is_controller := bool_decide (controller m = None) in
  let m' :=
    if is_controller
    then set_controller_id (Some user_id)
           (set_controller (Some websocket) joined)
    else joined in
  connect websocket user_id n m
  = (Ret is_controller, m',
     mkSend websocket
       (state_update (current_color m') is_controller (controller_id m')
                     (clock n))
       (send_ok n websocket) (current_color m')
     :: sends_to
          (user_update (length (active_connections m')) (controller_id m'))
          (current_color m') (S n) (active_connections m')).
Proof.
  intros H. unfold connect, bind, accept, modify, get, ret. rewrite H.
  simpl. case_bool_decide; simpl;
    rewrite send_state_update_eq, broadcast_user_update_eq; simpl;
    by rewrite app_nil_r.
Qed.

Lemma disconnect_absent websocket n m :
  websocket ∉ active_connections m ->
  disconnect websocket n m = (Ret false, m, []).
Proof.
  intros H. unfold disconnect, bind, get. simpl.
  by rewrite bool_decide_eq_false_2.
Qed.

Lemma disconnect_present websocket n m l :
  list_remove websocket (active_connections m) = Some l ->
  disconnect websocket n m
  = if bool_decide (Some websocket = controller m)
    then
      let cleared :=
        set_controller_id None
          (set_controller None (set_active_connections l m)) in
      match l with
      | first :: _ => (Ret true, set_controller (Some first) cleared, [])
      | [] => (Ret false, cleared, [])
      end
    else (Ret false, set_active_connections l m, []).
Proof.
  intros H. unfold disconnect, bind, get. simpl.
  rewrite bool_decide_eq_true_2.
  - unfold remove_connection. rewrite H. simpl.
    case_bool_decide; [|done]. by destruct l.
  - apply dec_stable. intros Hn. apply list_remove_None in Hn. congruence.
Qed.

(** ** The teardown handler unfolded *)

Lemma for_list_role_corrections p l n m :
  for_list (fun connection =>
              if bool_decide (connection <> p)
              then send_state_update connection false
              else ret tt) l n m
  = (Ret tt, m,
     role_corrections p (current_color m) (controller_id m) n l).
Proof.
  revert n. induction l as [|c l IH]; intros n; [done |].
  simpl. unfold bind. case_bool_decide.
  - rewrite send_state_update_eq. simpl. by rewrite IH.
  - unfold ret at 1. simpl. by rewrite IH.
Qed.

Lemma broadcast_new_controller_eq n m :
  broadcast_new_controller n m
  = match controller m with
    | Some c =>
        (Ret tt, m,
         mkSend c
           (state_update (current_color m) true (controller_id m) (clock n))
           (send_ok n c) (current_color m)
         :: role_corrections c (current_color m) (controller_id m) (S n)
              (active_connections m))
    | None => (Ret tt, m, [])
    end.
Proof.
  unfold broadcast_new_controller, bind, get. simpl.
  destruct (controller m) as [c|]; [|done].
  rewrite send_state_update_eq. simpl.
  rewrite for_connection_fixed.
  - by rewrite for_list_role_corrections.
  - intros x k m'. case_bool_decide; [|done].
    by rewrite send_state_update_eq.
Qed.

Lemma disconnect_returns websocket n m :
  exists b m1, disconnect websocket n m = (Ret b, m1, []).
Proof.
  destruct (list_remove websocket (active_connections m)) as [l|] eqn:E.
  - rewrite (disconnect_present _ _ _ _ E).
    case_bool_decide; [destruct l|]; eauto.
  - apply list_remove_None in E. rewrite disconnect_absent by done. eauto.
Qed.

Lemma websocket_endpoint_disconnect_eq websocket n m b m1 :
  disconnect websocket n m = (Ret b, m1, []) ->
  let t := if b then (broadcast_new_controller n m1).2 else [] in
  websocket_endpoint_disconnect websocket n m
  = (Ret tt, m1,
     t ++ sends_to
            (user_update (length (active_connections m1)) (controller_id m1))
            (current_color m1) (length t + n) (active_connections m1)).
Proof.
  intros Hd. unfold websocket_endpoint_disconnect, bind. rewrite Hd. simpl.
  destruct b.
  - rewrite broadcast_new_controller_eq.
    destruct (controller m1) as [c|]; simpl;
      by rewrite broadcast_user_update_eq, ?Nat.add_0_r.
  - unfold ret at 1. simpl. by rewrite broadcast_user_update_eq.
Qed.

Lemma websocket_endpoint_disconnect_manager websocket n m :
  (websocket_endpoint_disconnect websocket n m).1
  = (Ret tt, (disconnect websocket n m).1.2).
Proof.
  destruct (disconnect_returns websocket n m) as (b & m1 & Hd).
  rewrite (websocket_endpoint_disconnect_eq _ _ _ _ _ Hd). by rewrite Hd.
Qed.

(** ** The controller invariant *)

Lemma connect_invariant websocket user_id n m :
  controller_invariant m ->
  controller_invariant (connect websocket user_id n m).1.2.
Proof.
  intros [Hin Hnone]. destruct (accept_ok websocket) eqn:Hacc.
  - rewrite connect_accepted by done. simpl.
    case_bool_decide as Hc; simpl; split; simpl.
    + intros c [= <-]. apply elem_of_app. right. apply list_elem_of_here.
    + split; [done | by intros ?%app_eq_nil%proj2].
    + intros c Hc'. apply elem_of_app. left. by apply Hin.
    + split; [done | by intros ?%app_eq_nil%proj2].
  - rewrite connect_refused by done. done.
Qed.

Lemma disconnect_invariant websocket n m :
  controller_invariant m ->
  controller_invariant (disconnect websocket n m).1.2.
Proof.
  intros [Hin Hnone].
  destruct (list_remove websocket (active_connections m)) as [l|] eqn:E.
  - rewrite (disconnect_present _ _ _ _ E).
    case_bool_decide as Hc.
    + destruct l as [|first l]; simpl; split; simpl; try done.
      intros c [= <-]. apply list_elem_of_here.
    + simpl. split; simpl.
      * intros c Hc'. eapply list_remove_other; [done | congruence |].
        by apply Hin.
      * split.
        -- intros Hnc. apply Hnone in Hnc. by rewrite Hnc in E.
        -- intros ->. destruct (controller m) as [c|] eqn:Hcm; [|done].
           assert (c <> websocket) as Hne by congruence.
           pose proof (list_remove_other _ _ _ _ E Hne (Hin c eq_refl)) as Hx.
           by apply elem_of_nil in Hx.
  - apply list_remove_None in E. by rewrite disconnect_absent.
Qed.

Lemma handle_membership_invariant e n m :
  membership e ->
  controller_invariant m ->
  controller_invariant (handle e n m).1.2.
Proof.
  destruct e as [websocket user_id| |websocket]; simpl; [|done|]; intros _ Hm.
  - unfold websocket_endpoint_connect, bind, ret.
    pose proof (connect_invariant websocket user_id n m Hm) as H.
    by destruct (connect websocket user_id n m) as [[[b|e] m1] t1].
  - rewrite websocket_endpoint_disconnect_manager. simpl.
    by apply disconnect_invariant.
Qed.

Lemma run_membership_invariant events n m :
  Forall membership events ->
  controller_invariant m ->
  controller_invariant (run events n m).1.
Proof.
  intros Hev. revert n m.
  induction Hev as [|e events He Hev IH]; intros n m Hm; [done |].
  simpl. pose proof (handle_membership_invariant e n m He Hm) as H1.
  destruct (handle e n m) as [[r m1] t1]. simpl in H1.
  specialize (IH (length t1 + n) m1 H1).
  by destruct (run events (length t1 + n) m1) as [m2 t2].
Qed.

Lemma init_invariant : controller_invariant init.
Proof. by split. Qed.

(** C1. After every operation of a sequence of connects and disconnects
    (that is, after every prefix of the sequence, run from the freshly made
    manager), the controller, if set, is one of the active connections, and
    it is unset exactly when there is no active connection. *)
Theorem controller_invariant_after_each_membership_event events k n :
  Forall membership events ->
  controller_invariant (run (take k events) n init).1.
Proof.
  intros Hev. apply run_membership_invariant; [|apply init_invariant].
  by apply Forall_take.
Qed.

(** ** The loop of [broadcast_color_change] *)

Lemma broadcast_color_change_eq color n m :
  broadcast_color_change color n m
  = for_connection (color_change_round (color_change color (clock n)))
      n (set_current_color color m).
Proof.
  unfold broadcast_color_change, bind, modify, timestamp. simpl.
  by destruct (for_connection _ n (set_current_color color m)) as [[r m2] t2].
Qed.

Lemma color_change_round_eq data c n m :
  c ∈ active_connections m ->
  exists m',
    color_change_round data c n m
    = (Ret tt, m', [mkSend c data (send_ok n c) (current_color m)]) /\
    if send_ok n c then m' = m
    else exists l, list_remove c (active_connections m) = Some l /\
                   m' = set_active_connections l m.
Proof.
  intros Hc. unfold color_change_round, try_except, send_text.
  destruct (send_ok n c); [by eexists |].
  destruct (list_remove_Some c _ Hc) as [l Hl].
  unfold remove_connection. rewrite Hl. simpl. eauto.
Qed.

Ltac empty_log :=
  intros;
  match goal with H : _ ∈ [] |- _ => by apply elem_of_nil in H end.

(** What the loop does to the manager and what it logs, from any index. *)
Lemma color_change_loop data fuel i n m :
  exists m' t,
    for_connection_from fuel i (color_change_round data) n m = (Ret tt, m', t)
    /\ controller m' = controller m
    /\ current_color m' = current_color m
    /\ controller_id m' = controller_id m
    /\ active_connections m' `sublist_of` active_connections m
    /\ (forall s, s ∈ t ->
          payload s = data /\ recipient s ∈ active_connections m)
    /\ (NoDup (active_connections m) ->
        forall s, s ∈ t -> delivered s = false ->
                  recipient s ∉ active_connections m').
Proof.
  revert i n m. induction fuel as [|fuel IH]; intros i n m.
  { exists m, []. simpl. split_and!; try done; empty_log. }
  simpl. destruct (active_connections m !! i) as [c|] eqn:Hi.
  2:{ exists m, []. split_and!; try done; empty_log. }
  assert (c ∈ active_connections m) as Hc by by eapply list_elem_of_lookup_2.
  destruct (color_change_round_eq data c n m Hc) as (m1 & Hround & Hm1).
  unfold bind. rewrite Hround. simpl.
  destruct (IH (S i) (S n) m1) as (m' & t & -> & Hctrl & Hcol & Hcid
                                   & Hsub & Hlog & Hfail).
  exists m', (mkSend c data (send_ok n c) (current_color m) :: t).
  destruct (send_ok n c) eqn:Hok.
  - subst m1. split_and!; try done.
    + intros s [->|Hs]%elem_of_cons; [by split | by apply Hlog].
    + intros Hnd s [->|Hs]%elem_of_cons Hd; [done | by apply Hfail].
  - destruct Hm1 as (l & Hl & ->). simpl in *.
    pose proof (list_remove_sublist _ _ _ Hl) as Hsubl.
    split_and!; try done.
    + by etrans.
    + intros s [->|Hs]%elem_of_cons; [by split |].
      destruct (Hlog s Hs) as [Hp Hr]. split; [done |].
      by eapply sublist_subseteq.
    + intros Hnd s [->|Hs]%elem_of_cons Hd; simpl.
      * destruct (list_remove_NoDup _ _ _ Hnd Hl) as [Hnot _].
        intros Hin. apply Hnot. by eapply sublist_subseteq.
      * apply Hfail; [|done..].
        by destruct (list_remove_NoDup _ _ _ Hnd Hl).
Qed.

Lemma color_change_round_length data c n m :
  length (active_connections (color_change_round data c n m).1.2)
  <= length (active_connections m).
Proof.
  unfold color_change_round, try_except, send_text, remove_connection.
  destruct (send_ok n c); simpl; [done |].
  destruct (list_remove c (active_connections m)) as [l|] eqn:E; simpl;
    [|done].
  apply list_remove_length in E. lia.
Qed.

(** The loop of [broadcast_color_change] ends by exhausting its iterator. *)
Lemma broadcast_color_change_fuel color extra n m :
  for_connection_from (length (active_connections m) + extra) 0
    (color_change_round (color_change color (clock n)))
    n (set_current_color color m)
  = broadcast_color_change color n m.
Proof.
  rewrite broadcast_color_change_eq. unfold for_connection.
  apply for_connection_from_fuel; [|simpl; lia].
  intros c k m'. apply color_change_round_length.
Qed.

(** ** Logs and the transport *)

Lemma faithful_nil n : faithful n [].
Proof. intros k s Hk. done. Qed.

Lemma faithful_cons n s t :
  delivered s = send_ok n (recipient s) ->
  faithful (S n) t ->
  faithful n (s :: t).
Proof.
  intros Hs Ht [|k] s' Hk; simpl in Hk.
  - by injection Hk as <-.
  - rewrite Nat.add_succ_comm. by apply Ht.
Qed.

Lemma faithful_app n t1 t2 :
  faithful n t1 ->
  faithful (length t1 + n) t2 ->
  faithful n (t1 ++ t2).
Proof.
  intros H1 H2 k s Hk. apply lookup_app_Some in Hk as [Hk|[Hle Hk]].
  - by apply H1.
  - apply H2 in Hk. rewrite Hk. f_equal. lia.
Qed.

Lemma faithful_sends_to data color n l :
  faithful n (sends_to data color n l).
Proof.
  revert n. induction l as [|c l IH]; intros n; simpl.
  - apply faithful_nil.
  - by apply faithful_cons.
Qed.

Lemma faithful_role_corrections p color cid n l :
  faithful n (role_corrections p color cid n l).
Proof.
  revert n. induction l as [|c l IH]; intros n; simpl.
  - apply faithful_nil.
  - case_bool_decide; [by apply faithful_cons | done].
Qed.

Lemma role_corrections_sound p color cid n l s :
  s ∈ role_corrections p color cid n l ->
  exists ts, recipient s ∈ l /\ recipient s <> p
             /\ payload s = state_update color false cid ts.
Proof.
  revert n. induction l as [|c l IH]; intros n; simpl.
  - by intros ?%elem_of_nil.
  - case_bool_decide as Hc.
    + intros [->|Hs]%elem_of_cons.
      * eexists. simpl. split_and!; [apply list_elem_of_here | done..].
      * destruct (IH _ Hs) as (ts & ? & ? & ?). exists ts.
        split_and!; [by apply list_elem_of_further | done..].
    + intros Hs. destruct (IH _ Hs) as (ts & ? & ? & ?). exists ts.
      split_and!; [by apply list_elem_of_further | done..].
Qed.

Lemma role_corrections_complete p color cid n l c :
  c ∈ l -> c <> p ->
  exists s ts, s ∈ role_corrections p color cid n l /\ recipient s = c
               /\ payload s = state_update color false cid ts.
Proof.
  intros Hc Hne. revert n.
  induction l as [|x l IH]; intros n; simpl; [by apply elem_of_nil in Hc |].
  apply elem_of_cons in Hc as [->|Hc].
  - rewrite bool_decide_eq_true_2 by done.
    eexists _, _. split; [apply list_elem_of_here | done].
  - case_bool_decide.
    + destruct (IH Hc (S n)) as (s & ts & Hs & ? & ?).
      exists s, ts. split; [by apply list_elem_of_further | done].
    + apply IH, Hc.
Qed.

(** ** Colour requests *)

Lemma websocket_endpoint_receive_accepted websocket message_data color n m :
  dict_get message_data "type" = Some "color_change" ->
  dict_get message_data "color" = Some color ->
  controller m = Some websocket ->
  recognised color ->
  websocket_endpoint_receive websocket message_data n m
  = broadcast_color_change color n m.
Proof.
  intros Htype Hcolor Hctrl Hrec.
  unfold websocket_endpoint_receive, bind, getitem, get, ret.
  rewrite Htype. simpl. rewrite Hctrl.
  rewrite !bool_decide_eq_true_2 by done. simpl.
  rewrite Hcolor. simpl. unfold recognised in Hrec.
  rewrite bool_decide_eq_true_2 by done.
  by destruct (broadcast_color_change color n m) as [[r m2] t2].
Qed.

(** C2. A colour request from a socket that is not the controller, or for a
    colour other than red, yellow, green and none, returns normally, leaves
    the manager (so also [current_color]) as it was and sends nothing. *)
Theorem rejected_set_color_is_ignored websocket message_data color n m :
  dict_get message_data "type" = Some "color_change" ->
  dict_get message_data "color" = Some color ->
  controller m <> Some websocket \/ ~ recognised color ->
  websocket_endpoint_receive websocket message_data n m = (Ret tt, m, []).
Proof.
  intros Htype Hcolor Hrej.
  unfold websocket_endpoint_receive, bind, getitem, get, ret.
  rewrite Htype. simpl.
  case_bool_decide as Hctrl; [|done].
  rewrite Hcolor. simpl. unfold recognised in Hrej.
  case_bool_decide as Hrec; [|done].
  destruct Hrej as [Hne|Hnr]; [congruence | done].
Qed.

(** Every send of the loop is attempted while the manager holds the colour
    that it held when the loop was entered. *)
Lemma color_change_loop_snapshot data fuel i n m s :
  s ∈ (for_connection_from fuel i (color_change_round data) n m).2 ->
  color_at_send s = current_color m.
Proof.
  revert i n m. induction fuel as [|fuel IH]; intros i n m.
  { by intros ?%elem_of_nil. }
  simpl. destruct (active_connections m !! i) as [c|] eqn:Hi.
  2:{ by intros ?%elem_of_nil. }
  assert (c ∈ active_connections m) as Hc by by eapply list_elem_of_lookup_2.
  destruct (color_change_round_eq data c n m Hc) as (m1 & Hround & Hm1).
  unfold bind. rewrite Hround.
  assert (current_color m1 = current_color m) as Hcol.
  { destruct (send_ok n c); [by subst |]. by destruct Hm1 as (l & _ & ->). }
  specialize (IH (S i) (length [mkSend c data (send_ok n c) (current_color m)]
                        + n) m1).
  destruct (for_connection_from fuel (S i) (color_change_round data) _ m1)
    as [[r m2] t2].
  simpl in *. intros [->|Hs]%elem_of_cons; [done |].
  rewrite <- Hcol. by apply IH.
Qed.

(** C10. On an accepted colour request the handler is the sending loop
    started on the manager that already holds the new colour, at the
    attempt count of its entry (nothing has been sent by then); it returns
    normally, every send that it attempts is attempted while the manager
    holds the requested colour, and whatever the transport does to the
    sends, [current_color] and the colour that [get_status] reports are the
    requested one afterwards. *)
Theorem accepted_set_color_assigns_before_sending
  websocket message_data color n m :
  dict_get message_data "type" = Some "color_change" ->
  dict_get message_data "color" = Some color ->
  controller m = Some websocket ->
  recognised color ->
  let result := websocket_endpoint_receive websocket message_data n m in
  result
  = for_connection (color_change_round (color_change color (clock n)))
      n (set_current_color color m)
  /\ result.1.1 = Ret tt
  /\ (forall s, s ∈ result.2 -> color_at_send s = color)
  /\ current_color result.1.2 = color
  /\ status_current_color (get_status result.1.2) = color.
Proof.
  intros Htype Hcolor Hctrl Hrec. simpl.
  rewrite (websocket_endpoint_receive_accepted _ _ _ _ _ Htype Hcolor Hctrl
             Hrec).
  rewrite broadcast_color_change_eq. split; [done |].
  unfold for_connection.
  pose proof (color_change_loop_snapshot (color_change color (clock n))
                (length (active_connections (set_current_color color m)))
                0 n (set_current_color color m)) as Hsnap.
  destruct (color_change_loop (color_change color (clock n))
              (length (active_connections (set_current_color color m)))
              0 n (set_current_color color m))
    as (m' & t & Heq & _ & Hcol & _).
  rewrite Heq in *. simpl in *. split_and!; [done | exact Hsnap | done..].
Qed.

(** ** Disconnecting an absent socket *)

(** C8. [disconnect] of a socket that is not registered changes nothing in
    the manager (connections, controller, controller identity, colour) and
    returns [False]; so, the registry holding no socket twice, a second
    [disconnect] of the same socket changes nothing that the first left. *)
Theorem disconnect_absent_is_noop websocket n m :
  (websocket ∉ active_connections m ->
   disconnect websocket n m = (Ret false, m, [])) /\
  (NoDup (active_connections m) ->
   forall n',
     let m1 := (disconnect websocket n m).1.2 in
     disconnect websocket n' m1 = (Ret false, m1, [])).
Proof.
  split; [apply disconnect_absent |].
  intros Hnd n'. simpl. apply disconnect_absent.
  destruct (list_remove websocket (active_connections m)) as [l|] eqn:E.
  - destruct (list_remove_NoDup _ _ _ Hnd E) as [Hnot _].
    rewrite (disconnect_present _ _ _ _ E).
    case_bool_decide; [destruct l|]; done.
  - apply list_remove_None in E. by rewrite disconnect_absent.
Qed.

(** ** Messages of the teardown and opening handlers *)

Lemma disconnect_true websocket n m m1 t :
  disconnect websocket n m = (Ret true, m1, t) ->
  exists first rest,
    list_remove websocket (active_connections m) = Some (first :: rest)
    /\ controller m = Some websocket
    /\ m1 = set_controller (Some first)
              (set_controller_id None
                 (set_controller None
                    (set_active_connections (first :: rest) m))).
Proof.
  destruct (list_remove websocket (active_connections m)) as [l|] eqn:E.
  - rewrite (disconnect_present _ _ _ _ E).
    case_bool_decide as Hc; [destruct l as [|first rest]|]; intros [= <- <-].
    eauto.
  - apply list_remove_None in E. rewrite disconnect_absent by done. done.
Qed.

(** Every entry of the log of [broadcast_new_controller] is a
    [state_update] with the colour and the controller identity of the
    manager, whose flag tells whether the recipient is the controller. *)
Lemma broadcast_new_controller_log n m s :
  s ∈ (broadcast_new_controller n m).2 ->
  exists p ts,
    controller m = Some p
    /\ payload s = state_update (current_color m)
                     (bool_decide (recipient s = p)) (controller_id m) ts.
Proof.
  rewrite broadcast_new_controller_eq.
  destruct (controller m) as [p|]; simpl; [|by intros ?%elem_of_nil].
  intros [->|Hs]%elem_of_cons.
  - exists p. eexists. simpl. by rewrite bool_decide_eq_true_2.
  - apply role_corrections_sound in Hs as (ts & _ & Hne & ->).
    exists p, ts. by rewrite bool_decide_eq_false_2.
Qed.

Lemma broadcast_new_controller_faithful n m :
  faithful n (broadcast_new_controller n m).2.
Proof.
  rewrite broadcast_new_controller_eq.
  destruct (controller m) as [p|]; simpl; [|apply faithful_nil].
  apply faithful_cons; [done | apply faithful_role_corrections].
Qed.

(** C9. In the handlers of a connect and of a disconnect, every
    [user_update] that is sent carries the number of connections registered
    when the handler is done with the registry (and the controller identity
    of that moment), and, the handler having returned, one has been sent to
    every registered connection. *)
Theorem user_update_counts_registry e n m :
  membership e ->
  let result := handle e n m in
  let m' := result.1.2 in
  (forall s total cid,
     s ∈ result.2 -> payload s = user_update total cid ->
     total = length (active_connections m') /\ cid = controller_id m') /\
  (result.1.1 = Ret tt ->
   forall c, c ∈ active_connections m' ->
     exists s, s ∈ result.2 /\ recipient s = c /\
       payload s
       = user_update (length (active_connections m')) (controller_id m')).
Proof.
  destruct e as [websocket user_id| |websocket]; simpl; [|done|]; intros _.
  - unfold websocket_endpoint_connect, bind, ret.
    destruct (accept_ok websocket) eqn:Hacc.
    + rewrite connect_accepted by done. simpl. rewrite app_nil_r.
      set (m' := if bool_decide (controller m = None) then _ else _).
      split.
      * intros s total cid [->|Hs]%elem_of_cons; [done |].
        apply elem_of_sends_to in Hs as (k & c & _ & ->).
        by intros [= <- <-].
      * intros _ c [k Hk]%list_elem_of_lookup_1.
        eexists. split.
        { apply list_elem_of_further, elem_of_sends_to. eauto. }
        done.
    + rewrite connect_refused by done. simpl.
      split; [by intros s ? ? ?%elem_of_nil | done].
  - destruct (disconnect_returns websocket n m) as (b & m1 & Hd).
    rewrite (websocket_endpoint_disconnect_eq _ _ _ _ _ Hd). simpl. split.
    + intros s total cid [Hs|Hs]%elem_of_app.
      * destruct b; [|by apply elem_of_nil in Hs].
        apply broadcast_new_controller_log in Hs as (p & ts & _ & ->). done.
      * apply elem_of_sends_to in Hs as (k & c & _ & ->).
        by intros [= <- <-].
    + intros _ c [k Hk]%list_elem_of_lookup_1.
      eexists. split.
      { apply elem_of_app. right. apply elem_of_sends_to. eauto. }
      done.
Qed.

(** C5. When [disconnect] reports a promotion, the teardown handler sends
    the promoted socket a [state_update] with [is_controller] true and every
    other registered socket one with [is_controller] false; no
    [state_update] of the handler carries another flag, and each of these
    sends is delivered exactly if the transport lets it through. *)
Theorem promotion_role_correction websocket n m :
  (disconnect websocket n m).1.1 = Ret true ->
  let result := websocket_endpoint_disconnect websocket n m in
  let m' := result.1.2 in
  exists p,
    controller m' = Some p /\ p ∈ active_connections m' /\
    (exists s ts,
       s ∈ result.2 /\ recipient s = p /\
       payload s
       = state_update (current_color m') true (controller_id m') ts) /\
    (forall c, c ∈ active_connections m' -> c <> p ->
       exists s ts,
         s ∈ result.2 /\ recipient s = c /\
         payload s
         = state_update (current_color m') false (controller_id m') ts) /\
    (forall s color flag cid ts,
       s ∈ result.2 -> payload s = state_update color flag cid ts ->
       flag = bool_decide (recipient s = p)) /\
    faithful n result.2.
Proof.
  intros Htrue.
  destruct (disconnect_returns websocket n m) as (b & m1 & Hd).
  rewrite Hd in Htrue. injection Htrue as ->.
  destruct (disconnect_true _ _ _ _ _ Hd) as (first & rest & _ & _ & Hm1).
  rewrite (websocket_endpoint_disconnect_eq _ _ _ _ _ Hd). simpl.
  assert (controller m1 = Some first) as Hctrl by by subst m1.
  assert (active_connections m1 = first :: rest) as Hconns by by subst m1.
  clear Hm1 Hd. exists first. split; [done |].
  split; [rewrite Hconns; apply list_elem_of_here |].
  split_and!.
  - rewrite broadcast_new_controller_eq, Hctrl. simpl.
    eexists _, _. split; [apply list_elem_of_here | done].
  - intros c Hc Hne. rewrite broadcast_new_controller_eq, Hctrl. simpl.
    destruct (role_corrections_complete first (current_color m1)
                (controller_id m1) (S n) _ c Hc Hne) as (s & ts & Hs & ? & ?).
    exists s, ts. split; [|done].
    by apply list_elem_of_further, elem_of_app; left.
  - intros s color flag cid ts [Hs|Hs]%elem_of_app Hp.
    + apply broadcast_new_controller_log in Hs as (p & ts' & Hp' & Hs).
      rewrite Hp in Hs. simplify_eq. done.
    + apply elem_of_sends_to in Hs as (k & c & _ & ->). done.
  - apply faithful_app; [apply broadcast_new_controller_faithful |].
    apply faithful_sends_to.
Qed.

(** ** Failed sends *)

(** When the transport lets every send through, the colour broadcast
    reaches every registered connection and prunes nobody. *)
Lemma broadcast_color_change_all_delivered color n m :
  (forall k c, send_ok k c = true) ->
  broadcast_color_change color n m
  = (Ret tt, set_current_color color m,
     sends_to (color_change color (clock n)) color n (active_connections m)).
Proof.
  intros Hok. rewrite broadcast_color_change_eq.
  assert (forall data c k m0,
            color_change_round data c k m0
            = (Ret tt, m0, [mkSend c data (send_ok k c) (current_color m0)]))
    as Hround.
  { intros. unfold color_change_round, try_except, send_text.
    by rewrite Hok. }
  assert (forall data l k m0,
            for_list (color_change_round data) l k m0
            = (Ret tt, m0, sends_to data (current_color m0) k l)) as Hlist.
  { intros data l. induction l as [|c l IH]; intros k m0; [done |].
    simpl. unfold bind. rewrite Hround. simpl. by rewrite IH. }
  rewrite for_connection_fixed by (intros; by rewrite Hround).
  by rewrite Hlist.
Qed.

(** C7, as the code has it. A failed send never escapes a broadcast. In
    [broadcast_user_update] and [broadcast_new_controller] it changes
    nothing: the manager is left as it was, and the one logs an attempt for
    every registered connection in turn, the other for every registered
    connection when there is a controller. In [broadcast_color_change],
    over a registry without repetition, every connection whose send failed
    is no longer registered afterwards. *)
Theorem failed_send_is_contained color n m :
  broadcast_user_update n m
  = (Ret tt, m,
     sends_to (user_update (length (active_connections m)) (controller_id m))
              (current_color m) n (active_connections m))
  /\ ((broadcast_new_controller n m).1 = (Ret tt, m)
      /\ forall p c, controller m = Some p -> c ∈ active_connections m ->
           exists s, s ∈ (broadcast_new_controller n m).2 /\ recipient s = c)
  /\ (NoDup (active_connections m) ->
      let result := broadcast_color_change color n m in
      result.1.1 = Ret tt
      /\ forall s, s ∈ result.2 -> delivered s = false ->
           recipient s ∈ active_connections m
           /\ recipient s ∉ active_connections result.1.2).
Proof.
  split; [apply broadcast_user_update_eq |]. split.
  - rewrite broadcast_new_controller_eq. split.
    + by destruct (controller m).
    + intros p c -> Hc. simpl. destruct (decide (c = p)) as [->|Hne].
      * eexists. split; [apply list_elem_of_here | done].
      * destruct (role_corrections_complete p (current_color m)
                    (controller_id m) (S n) _ c Hc Hne)
          as (s & ts & Hs & ? & ?).
        exists s. split; [by apply list_elem_of_further | done].
  - intros Hnd. simpl. rewrite broadcast_color_change_eq.
    unfold for_connection.
    destruct (color_change_loop (color_change color (clock n))
                (length (active_connections (set_current_color color m)))
                0 n (set_current_color color m))
      as (m' & t & -> & _ & _ & _ & _ & Hlog & Hfail).
    simpl in *. split; [done |].
    intros s Hs Hd. split; [by apply Hlog | by apply Hfail].
Qed.

(** ** Join order *)

Lemma websocket_endpoint_receive_sublist websocket message_data n m :
  active_connections (websocket_endpoint_receive websocket message_data n m).1.2
  `sublist_of` active_connections m.
Proof.
  unfold websocket_endpoint_receive, bind, getitem, get, ret.
  destruct (dict_get message_data "type") as [type|]; simpl; [|done].
  destruct (bool_decide (type = "color_change")
            && bool_decide (Some websocket = controller m)); simpl; [|done].
  destruct (dict_get message_data "color") as [color|]; simpl; [|done].
  case_bool_decide; simpl; [|done].
  rewrite broadcast_color_change_eq. unfold for_connection.
  destruct (color_change_loop (color_change color (clock n))
              (length (active_connections (set_current_color color m)))
              0 n (set_current_color color m))
    as (m' & t & -> & _ & _ & _ & Hsub & _).
  done.
Qed.

Lemma disconnect_sublist websocket n m :
  active_connections (disconnect websocket n m).1.2
  `sublist_of` active_connections m.
Proof.
  destruct (list_remove websocket (active_connections m)) as [l|] eqn:E.
  - rewrite (disconnect_present _ _ _ _ E).
    apply list_remove_sublist in E.
    case_bool_decide; [destruct l|]; done.
  - apply list_remove_None in E. by rewrite disconnect_absent.
Qed.

Lemma handle_sublist e n m :
  active_connections (handle e n m).1.2
  `sublist_of` active_connections m ++ connects [e].
Proof.
  destruct e as [websocket user_id|websocket message_data|websocket]; simpl.
  - unfold websocket_endpoint_connect, bind, ret.
    destruct (accept_ok websocket) eqn:Hacc.
    + rewrite connect_accepted by done. simpl.
      by case_bool_decide.
    + rewrite connect_refused by done. simpl. by apply sublist_inserts_r.
  - rewrite app_nil_r. apply websocket_endpoint_receive_sublist.
  - rewrite app_nil_r, websocket_endpoint_disconnect_manager. simpl.
    apply disconnect_sublist.
Qed.

Lemma connects_cons e events :
  connects (e :: events) = connects [e] ++ connects events.
Proof. by destruct e. Qed.

(** The registry lists its sockets in the order in which they joined. *)
Lemma run_sublist events n m base :
  active_connections m `sublist_of` base ->
  active_connections (run events n m).1 `sublist_of` base ++ connects events.
Proof.
  revert n m base. induction events as [|e events IH]; intros n m base Hm.
  - simpl. by rewrite app_nil_r.
  - rewrite (connects_cons e events), (assoc_L (++)). cbn [run].
    pose proof (handle_sublist e n m) as H1.
    destruct (handle e n m) as [[r m1] t1]. cbn [fst snd] in H1.
    specialize (IH (length t1 + n) m1 (base ++ connects [e])).
    destruct (run events (length t1 + n) m1) as [m2 t2]. cbn [fst] in *.
    apply IH. etrans; [done |]. by apply sublist_app.
Qed.

Lemma sublist_cons_order (p c : WebSocket) rest l :
  p :: rest `sublist_of` l -> c ∈ rest ->
  exists i j, i < j /\ l !! i = Some p /\ l !! j = Some c.
Proof.
  intros (k1 & k2 & -> & Hrest)%sublist_cons_l Hc.
  assert (c ∈ k2) as [j Hj]%list_elem_of_lookup_1
    by by eapply sublist_subseteq.
  exists (length k1), (length k1 + S j). split_and!; [lia | |].
  - by rewrite lookup_app_r, Nat.sub_diag by lia.
  - rewrite lookup_app_r by lia.
    by replace (length k1 + S j - length k1) with (S j) by lia.
Qed.

Lemma run_join_order events n :
  active_connections (run events n init).1 `sublist_of` connects events.
Proof. apply (run_sublist events n init []). simpl. apply sublist_nil_l. Qed.

(** No socket opening two sessions, the registry never holds one twice. *)
Lemma run_NoDup events n :
  NoDup (connects events) -> NoDup (active_connections (run events n init).1).
Proof. eauto using sublist_NoDup, run_join_order. Qed.

Lemma joined_before_asymmetric events a b :
  NoDup (connects events) ->
  joined_before events a b -> ~ joined_before events b a.
Proof.
  intros Hnd (i & j & Hij & Hi & Hj) (i' & j' & Hij' & Hi' & Hj').
  pose proof (NoDup_lookup _ _ _ _ Hnd Hi Hj') as ->.
  pose proof (NoDup_lookup _ _ _ _ Hnd Hj Hi') as ->.
  lia.
Qed.

(** X14. In a state reached from the freshly made manager by any events in
    which no socket opens two sessions, [disconnect] of a controller that is
    still on the list of connections, some other connection being
    registered, returns [True] and makes controller a surviving connection
    that opened its session before every other survivor; the survivors are
    the connections registered before, less the one that left. *)
Theorem promotion_prefers_earliest_joined events n0 websocket n :
  NoDup (connects events) ->
  let m := (run events n0 init).1 in
  controller m = Some websocket ->
  websocket ∈ active_connections m ->
  (exists c, c ∈ active_connections m /\ c <> websocket) ->
  exists p m',
    disconnect websocket n m = (Ret true, m', [])
    /\ controller m' = Some p
    /\ p ∈ active_connections m'
    /\ (forall c, c ∈ active_connections m'
                  <-> c ∈ active_connections m /\ c <> websocket)
    /\ (forall c, c ∈ active_connections m' -> c <> p ->
          joined_before events p c /\ ~ joined_before events c p).
Proof.
  intros Hnd m Hctrl Hin (other & Hother & Hne).
  pose proof (run_join_order events n0) as Hsub. fold m in Hsub.
  pose proof (run_NoDup events n0 Hnd) as Hndm. fold m in Hndm.
  destruct (list_remove_Some _ _ Hin) as [l Hl].
  destruct (list_remove_NoDup _ _ _ Hndm Hl) as [Hnot Hndl].
  pose proof (list_remove_sublist _ _ _ Hl) as Hsubl.
  pose proof (list_remove_other _ _ _ _ Hl Hne Hother) as Hol.
  destruct l as [|p rest]; [by apply elem_of_nil in Hol |].
  eexists p, _. split.
  { rewrite (disconnect_present _ _ _ _ Hl).
    by rewrite bool_decide_eq_true_2. }
  simpl. split_and!; [done | apply list_elem_of_here | |].
  - intros c. split.
    + intros Hc. split; [by eapply sublist_subseteq | by intros ->].
    + intros [Hc Hcne]. by eapply list_remove_other.
  - intros c Hc Hcp.
    assert (joined_before events p c) as Hjb.
    { eapply sublist_cons_order; [by etrans |].
      by apply elem_of_cons in Hc as [|]. }
    split; [done | by apply joined_before_asymmetric].
Qed.

(** ** What an event can do to the manager *)

(** A frame either leaves the manager alone and sends nothing, or is a
    colour request of the controller for a recognised colour. *)
Lemma websocket_endpoint_receive_cases websocket message_data n m :
  ((websocket_endpoint_receive websocket message_data n m).1.2 = m
   /\ (websocket_endpoint_receive websocket message_data n m).2 = [])
  \/ (exists color,
        dict_get message_data "type" = Some "color_change"
        /\ dict_get message_data "color" = Some color
        /\ controller m = Some websocket
        /\ recognised color
        /\ websocket_endpoint_receive websocket message_data n m
           = broadcast_color_change color n m).
Proof.
  destruct (dict_get message_data "type") as [type|] eqn:Htype.
  2:{ left. unfold websocket_endpoint_receive, bind, getitem.
      by rewrite Htype. }
  destruct (decide (type = "color_change")) as [->|Hty].
  2:{ left. unfold websocket_endpoint_receive, bind, getitem, get, ret.
      rewrite Htype. simpl. by rewrite bool_decide_eq_false_2. }
  destruct (decide (controller m = Some websocket)) as [Hctrl|Hctrl].
  2:{ left. unfold websocket_endpoint_receive, bind, getitem, get, ret.
      rewrite Htype. simpl.
      by rewrite (bool_decide_eq_false_2 (Some websocket = controller m)). }
  destruct (dict_get message_data "color") as [color|] eqn:Hcolor.
  2:{ left. unfold websocket_endpoint_receive, bind, getitem, get, ret.
      rewrite Htype. simpl.
      rewrite (bool_decide_eq_true_2 (Some websocket = controller m)) by done.
      simpl. by rewrite Hcolor. }
  destruct (decide (recognised color)) as [Hrec|Hrec].
  - right. exists color. split_and!; try done.
    by apply websocket_endpoint_receive_accepted.
  - left. unfold websocket_endpoint_receive, bind, getitem, get, ret.
    rewrite Htype. simpl.
    rewrite (bool_decide_eq_true_2 (Some websocket = controller m)) by done.
    simpl. rewrite Hcolor. simpl. unfold recognised in Hrec.
    by rewrite bool_decide_eq_false_2.
Qed.

(** The colour broadcast touches the colour and the list, nothing else. *)
Lemma broadcast_color_change_fields color n m :
  exists m' t,
    broadcast_color_change color n m = (Ret tt, m', t)
    /\ controller m' = controller m
    /\ controller_id m' = controller_id m
    /\ current_color m' = color
    /\ active_connections m' `sublist_of` active_connections m.
Proof.
  rewrite broadcast_color_change_eq. unfold for_connection.
  destruct (color_change_loop (color_change color (clock n))
              (length (active_connections (set_current_color color m)))
              0 n (set_current_color color m))
    as (m' & t & -> & Hctrl & Hcol & Hcid & Hsub & _).
  by exists m', t.
Qed.

Lemma connect_fields websocket user_id n m :
  let m' := (connect websocket user_id n m).1.2 in
  current_color m' = current_color m
  /\ (forall c, controller m = Some c ->
        controller m' = Some c /\ controller_id m' = controller_id m).
Proof.
  destruct (accept_ok websocket) eqn:Hacc.
  - rewrite connect_accepted by done. simpl.
    case_bool_decide as Hc; simpl; [|done].
    split; [done |]. intros c Hc'. congruence.
  - rewrite connect_refused by done. done.
Qed.

Lemma handle_connect_manager websocket user_id n m :
  (handle (Connect websocket user_id) n m).1.2
  = (connect websocket user_id n m).1.2.
Proof.
  simpl. unfold websocket_endpoint_connect, bind, ret.
  by destruct (connect websocket user_id n m) as [[[b|e] m1] t1].
Qed.

Lemma disconnect_other websocket n m :
  controller m <> Some websocket ->
  let m' := (disconnect websocket n m).1.2 in
  controller m' = controller m
  /\ controller_id m' = controller_id m
  /\ current_color m' = current_color m.
Proof.
  intros Hne.
  destruct (list_remove websocket (active_connections m)) as [l|] eqn:E.
  - rewrite (disconnect_present _ _ _ _ E).
    by rewrite bool_decide_eq_false_2.
  - apply list_remove_None in E. by rewrite disconnect_absent.
Qed.

(** X1. A controller stays controller through every event but the teardown
    of its own session: a connect does not displace it, a colour request
    does not touch it, nor does the teardown of another session. *)
Theorem controller_tenure e n m c :
  controller m = Some c ->
  e <> Disconnect c ->
  controller (handle e n m).1.2 = Some c.
Proof.
  intros Hc He. destruct e as [w uid|w d|w].
  - rewrite handle_connect_manager.
    by destruct (connect_fields w uid n m) as [_ H]; apply H.
  - simpl. destruct (websocket_endpoint_receive_cases w d n m)
      as [[-> _]|(color & _ & _ & _ & _ & ->)]; [done |].
    destruct (broadcast_color_change_fields color n m)
      as (m' & t & -> & Hctrl & _). simpl. congruence.
  - simpl. rewrite websocket_endpoint_disconnect_manager. simpl.
    destruct (disconnect_other w n m) as [-> _]; [|done]. congruence.
Qed.

Lemma handle_current_color e n m :
  recognised (current_color m) ->
  recognised (current_color (handle e n m).1.2).
Proof.
  intros Hm. destruct e as [w uid|w d|w].
  - rewrite handle_connect_manager.
    by destruct (connect_fields w uid n m) as [-> _].
  - simpl. destruct (websocket_endpoint_receive_cases w d n m)
      as [[-> _]|(color & _ & _ & _ & Hrec & ->)]; [done |].
    destruct (broadcast_color_change_fields color n m)
      as (m' & t & -> & _ & _ & Hcol & _). simpl. by rewrite Hcol.
  - simpl. rewrite websocket_endpoint_disconnect_manager. simpl.
    destruct (list_remove w (active_connections m)) as [l|] eqn:E.
    + rewrite (disconnect_present _ _ _ _ E).
      case_bool_decide; [destruct l|]; done.
    + apply list_remove_None in E. by rewrite disconnect_absent.
Qed.

(** X2. Whatever the events and the transport, the colour of the light is
    always one of none, red, yellow and green. *)
Theorem current_color_always_recognised events n :
  recognised (current_color (run events n init).1).
Proof.
  assert (forall m k, recognised (current_color m) ->
            recognised (current_color (run events k m).1)) as H.
  { induction events as [|e events IH]; intros m k Hm; [done |].
    simpl. pose proof (handle_current_color e k m Hm) as H1.
    destruct (handle e k m) as [[r m1] t1]. simpl in H1.
    specialize (IH m1 (length t1 + k) H1).
    by destruct (run events (length t1 + k) m1) as [m2 t2]. }
  apply H. unfold recognised. simpl. rewrite !elem_of_cons. tauto.
Qed.

(** ** The reported identity *)

Lemma handle_identity_sound past e n m :
  identity_sound past m ->
  identity_sound (past ++ [e]) (handle e n m).1.2.
Proof.
  intros [Hnone Hsome].
  assert (identity_sound (past ++ [e]) m) as Hweak.
  { split; [done |]. intros uid Huid.
    destruct (Hsome uid Huid) as (ws & ? & ?). exists ws.
    split; [done |]. apply elem_of_app. by left. }
  destruct e as [w uid|w d|w].
  - rewrite handle_connect_manager.
    destruct (accept_ok w) eqn:Hacc.
    + rewrite connect_accepted by done. simpl.
      case_bool_decide as Hc; simpl.
      * split; simpl; [done |]. intros uid' [= <-]. exists w.
        split; [done |]. apply elem_of_app. right. apply list_elem_of_here.
      * done.
    + by rewrite connect_refused.
  - simpl. destruct (websocket_endpoint_receive_cases w d n m)
      as [[-> _]|(color & _ & _ & _ & _ & ->)]; [done |].
    destruct (broadcast_color_change_fields color n m)
      as (m' & t & -> & Hctrl & Hcid & _). simpl.
    destruct Hweak as [H1 H2]. split; rewrite Hctrl, Hcid; done.
  - simpl. rewrite websocket_endpoint_disconnect_manager. simpl.
    destruct (decide (controller m = Some w)) as [Hc|Hc].
    + destruct (list_remove w (active_connections m)) as [l|] eqn:E.
      * rewrite (disconnect_present _ _ _ _ E).
        rewrite bool_decide_eq_true_2 by done.
        destruct l; simpl; split; done.
      * apply list_remove_None in E. by rewrite disconnect_absent.
    + destruct (disconnect_other w n m Hc) as (Hctrl & Hcid & _).
      destruct Hweak as [H1 H2]. split; rewrite Hctrl, Hcid; done.
Qed.

Lemma run_identity_sound events past n m :
  identity_sound past m ->
  identity_sound (past ++ events) (run events n m).1.
Proof.
  revert past n m. induction events as [|e events IH]; intros past n m Hm.
  - by rewrite app_nil_r.
  - simpl. pose proof (handle_identity_sound past e n m Hm) as H1.
    destruct (handle e n m) as [[r m1] t1]. simpl in H1.
    specialize (IH (past ++ [e]) (length t1 + n) m1 H1).
    destruct (run events (length t1 + n) m1) as [m2 t2].
    by rewrite <- (assoc_L (++)) in IH.
Qed.

(** X3. After any events, on any transport: without a controller the
    manager reports no controller identity, and an identity that it reports
    is the [user_id] under which the present controller connected. *)
Theorem controller_id_names_the_controller events n :
  let m := (run events n init).1 in
  (controller m = None -> controller_id m = None) /\
  (forall user_id, controller_id m = Some user_id ->
     exists websocket,
       controller m = Some websocket /\ Connect websocket user_id ∈ events).
Proof. apply (run_identity_sound events [] n init). by split. Qed.

(** ** A controller that fell off the list *)

Lemma handle_stale_controller e n m z :
  controller m = Some z ->
  z ∉ active_connections m ->
  quiet z e ->
  let m' := (handle e n m).1.2 in
  controller m' = Some z
  /\ (z ∉ active_connections m')
  /\ current_color m' = current_color m
  /\ controller_id m' = controller_id m.
Proof.
  intros Hc Hz He. destruct e as [w uid|w d|w]; simpl in He.
  - rewrite handle_connect_manager.
    destruct (accept_ok w) eqn:Hacc.
    + rewrite connect_accepted by done. simpl.
      rewrite bool_decide_eq_false_2 by congruence. simpl.
      split_and!; try done.
      rewrite elem_of_app, list_elem_of_singleton. intros [?|?]; congruence.
    + by rewrite connect_refused.
  - simpl. destruct (websocket_endpoint_receive_cases w d n m)
      as [[-> _]|(color & _ & _ & Hw & _)]; [done | congruence].
  - simpl. rewrite websocket_endpoint_disconnect_manager. simpl.
    destruct (list_remove w (active_connections m)) as [l|] eqn:E.
    + assert (w <> z) as Hne.
      { intros ->. by apply list_remove_None in Hz; rewrite Hz in E. }
      rewrite (disconnect_present _ _ _ _ E).
      rewrite bool_decide_eq_false_2 by congruence. simpl.
      split_and!; try done.
      intros Hin. apply Hz.
      eapply sublist_subseteq; [by eapply list_remove_sublist | done].
    + apply list_remove_None in E. by rewrite disconnect_absent.
Qed.

(** X4. Once the controller is no longer on the list of connections (a
    failed send of a colour broadcast took it off) it cannot be replaced:
    through any events other than frames from that socket itself, the
    teardown of its own session included, it stays controller and stays off
    the list, and the colour and the reported identity never change
    again. *)
Theorem stale_controller_is_never_replaced events n m z :
  controller m = Some z ->
  z ∉ active_connections m ->
  Forall (quiet z) events ->
  let m' := (run events n m).1 in
  controller m' = Some z
  /\ (z ∉ active_connections m')
  /\ current_color m' = current_color m
  /\ controller_id m' = controller_id m.
Proof.
  intros Hc Hz Hev. revert n m Hc Hz.
  induction Hev as [|e events He Hev IH]; intros n m Hc Hz; [done |].
  simpl. destruct (handle_stale_controller e n m z Hc Hz He)
    as (H1 & H2 & H3 & H4).
  destruct (handle e n m) as [[r m1] t1]. simpl in *.
  specialize (IH (length t1 + n) m1 H1 H2).
  destruct (run events (length t1 + n) m1) as [m2 t2]. simpl in *.
  destruct IH as (? & ? & ? & ?). split_and!; congruence.
Qed.

(** ** The registry and the open sessions *)

Lemma list_remove_NoDup_elem w l l' c :
  NoDup l -> list_remove w l = Some l' -> c ∈ l' <-> c ∈ l /\ c <> w.
Proof.
  intros Hnd Hl. destruct (list_remove_NoDup _ _ _ Hnd Hl) as [Hnot _].
  split.
  - intros Hc. split; [|by intros ->].
    eapply sublist_subseteq; [by eapply list_remove_sublist | done].
  - intros [Hc Hne]. by eapply list_remove_other.
Qed.

Lemma connect_connections websocket user_id n m :
  active_connections (connect websocket user_id n m).1.2
  = if accept_ok websocket
    then active_connections m ++ [websocket]
    else active_connections m.
Proof.
  destruct (accept_ok websocket) eqn:Hacc.
  - rewrite connect_accepted by done. simpl. by case_bool_decide.
  - by rewrite connect_refused.
Qed.

Lemma disconnect_connections websocket n m :
  active_connections (disconnect websocket n m).1.2
  = default (active_connections m)
      (list_remove websocket (active_connections m)).
Proof.
  destruct (list_remove websocket (active_connections m)) as [l|] eqn:E.
  - rewrite (disconnect_present _ _ _ _ E).
    case_bool_decide; [destruct l|]; done.
  - apply list_remove_None in E. by rewrite disconnect_absent.
Qed.

Lemma live_cons_connect w user_id events c :
  live (Connect w user_id :: events) c
  <-> (c = w /\ accept_ok w = true /\ Disconnect c ∉ events)
      \/ live events c.
Proof.
  split.
  - intros ([|i] & uid & Hi & Hacc & Hno); simpl in *.
    + left. by injection Hi as -> ->.
    + right. by exists i, uid.
  - intros [(-> & Hacc & Hno)|(i & uid & Hi & Hacc & Hno)].
    + by exists 0, user_id.
    + by exists (S i), uid.
Qed.

Lemma live_cons_disconnect w events c :
  live (Disconnect w :: events) c <-> live events c.
Proof.
  split.
  - intros ([|i] & uid & Hi & Hacc & Hno); simpl in *; [done |].
    by exists i, uid.
  - intros (i & uid & Hi & Hacc & Hno). by exists (S i), uid.
Qed.

Lemma run_registry events n m :
  Forall membership events ->
  NoDup (active_connections m ++ connects events) ->
  forall c,
    c ∈ active_connections (run events n m).1
    <-> (c ∈ active_connections m /\ Disconnect c ∉ events)
        \/ live events c.
Proof.
  intros Hev. revert n m.
  induction Hev as [|e events He Hev IH]; intros n m Hnd c.
  - simpl. split.
    + intros Hc. left. split; [done | apply not_elem_of_nil].
    + intros [[Hc _]|(i & uid & Hi & _)]; done.
  - cbn [run].
    assert (exists m1,
              (handle e n m).1.2 = m1
              /\ NoDup (active_connections m1 ++ connects events)
              /\ ((c ∈ active_connections m1 /\ Disconnect c ∉ events)
                  \/ live events c
                  <-> (c ∈ active_connections m /\ Disconnect c ∉ e :: events)
                      \/ live (e :: events) c))
      as (m1 & Hm1 & Hnd1 & Hiff).
    { eexists. split; [done |].
      destruct e as [w uid|w d|w]; [|done|].
      - rewrite handle_connect_manager, connect_connections.
        simpl in Hnd. rewrite live_cons_connect, not_elem_of_cons.
        apply NoDup_app in Hnd as (Hm & Hdisj & Hcs).
        apply NoDup_cons in Hcs as [Hw Hcs].
        assert (w ∉ active_connections m) as Hwm.
        { intros Hin. apply (Hdisj w Hin), list_elem_of_here. }
        destruct (accept_ok w) eqn:Hacc.
        + split.
          * rewrite <- (assoc_L (++)). simpl. apply NoDup_app.
            split_and!; [done | | by apply NoDup_cons]. done.
          * rewrite elem_of_app, list_elem_of_singleton.
            intuition congruence.
        + split.
          * apply NoDup_app. split_and!; [done | | done].
            intros x Hx Hx'. apply (Hdisj x Hx).
            by apply list_elem_of_further.
          * intuition congruence.
      - simpl. rewrite websocket_endpoint_disconnect_manager. simpl.
        rewrite disconnect_connections, live_cons_disconnect.
        rewrite not_elem_of_cons. simpl in Hnd.
        apply NoDup_app in Hnd as (Hm & Hdisj & Hcs).
        destruct (list_remove w (active_connections m)) as [l|] eqn:E;
          simpl.
        + pose proof (list_remove_NoDup_elem w _ _ c Hm E) as Hel.
          destruct (list_remove_NoDup _ _ _ Hm E) as [_ Hl].
          split.
          * apply NoDup_app. split_and!; [done | | done].
            intros x Hx. apply Hdisj.
            eapply sublist_subseteq; [by eapply list_remove_sublist | done].
          * rewrite Hel. split.
            { intros [[[Hc Hne] Hno]|Hl']; [left | by right].
              split_and!; try done. congruence. }
            intros [[Hc [Hne Hno]]|Hl']; [left | by right].
            split_and!; try done. congruence.
        + apply list_remove_None in E. split.
          * by apply NoDup_app.
          * split; [|tauto].
            intros [[Hc Hno]|Hl']; [left | by right].
            split_and!; try done. intros [= ->]. done. }
    destruct (handle e n m) as [[r m1'] t1]. simpl in Hm1. subst m1'.
    specialize (IH (length t1 + n) m1 Hnd1 c).
    destruct (run events (length t1 + n) m1) as [m2 t2]. simpl in *.
    by rewrite IH.
Qed.

(** X5. Over connects and disconnects, no socket opening two sessions, the
    list of active connections holds exactly the sockets whose session is
    open: accepted, and not torn down since. *)
Theorem registry_is_live_sessions events n c :
  Forall membership events ->
  NoDup (connects events) ->
  c ∈ active_connections (run events n init).1 <-> live events c.
Proof.
  intros Hev Hnd. rewrite (run_registry events n init Hev) by done.
  simpl. split; [|by right]. intros [[Hc _]|Hl]; [|done].
  by apply elem_of_nil in Hc.
Qed.

(** ** The colour broadcast, socket by socket *)

Lemma list_remove_app_notin c pre rest :
  c ∉ pre -> list_remove c (pre ++ c :: rest) = Some (pre ++ rest).
Proof.
  induction pre as [|x pre IH]; simpl; intros Hc.
  - by rewrite decide_True.
  - apply not_elem_of_cons in Hc as [Hne Hc].
    rewrite decide_False by done. by rewrite IH.
Qed.

Lemma set_active_connections_same m :
  set_active_connections (active_connections m) m = m.
Proof. by destruct m. Qed.

Lemma lookup_middle_here (pre suf : list WebSocket) :
  (pre ++ suf) !! length pre = suf !! 0.
Proof. by rewrite lookup_app_r, Nat.sub_diag by lia. Qed.

Lemma color_walk_loop data fuel pre suf n m :
  active_connections m = pre ++ suf ->
  NoDup (pre ++ suf) ->
  length suf <= fuel ->
  for_connection_from fuel (length pre) (color_change_round data) n m
  = (Ret tt,
     set_active_connections
       (pre ++ (color_walk data (current_color m) false n suf).2) m,
     (color_walk data (current_color m) false n suf).1).
Proof.
  revert pre suf n m. induction fuel as [|fuel IH]; intros pre suf n m.
  { intros Hm _ Hlen. destruct suf; [|simpl in Hlen; lia]. simpl.
    by rewrite <- Hm, set_active_connections_same. }
  intros Hm Hnd Hlen. simpl. rewrite Hm, lookup_middle_here.
  destruct suf as [|c rest]; simpl.
  { by rewrite <- Hm, set_active_connections_same. }
  assert (c ∈ active_connections m) as Hc.
  { rewrite Hm. apply elem_of_app. right. apply list_elem_of_here. }
  destruct (color_change_round_eq data c n m Hc) as (m1 & Hround & Hm1).
  unfold bind. rewrite Hround. simpl.
  destruct (send_ok n c) eqn:Hok.
  - subst m1.
    replace (S (length pre)) with (length (pre ++ [c]))
      by (rewrite length_app; simpl; lia).
    rewrite (IH (pre ++ [c]) rest (S n) m).
    + destruct (color_walk data (current_color m) false (S n) rest)
        as [t kept]. simpl.
      by rewrite <- (assoc_L (++)).
    + by rewrite <- (assoc_L (++)).
    + by rewrite <- (assoc_L (++)).
    + simpl in Hlen. lia.
  - destruct Hm1 as (l & Hl & ->).
    assert (c ∉ pre) as Hpre.
    { apply NoDup_app in Hnd as (_ & Hdisj & _).
      intros Hin. apply (Hdisj c Hin), list_elem_of_here. }
    rewrite Hm, (list_remove_app_notin c pre rest Hpre) in Hl.
    injection Hl as <-.
    assert (NoDup (pre ++ rest)) as Hnd'.
    { assert (pre ++ rest `sublist_of` pre ++ c :: rest) as Hsub
        by (apply sublist_app; [done | by apply sublist_cons]).
      eauto using sublist_NoDup. }
    destruct rest as [|d rest']; simpl.
    + destruct fuel; simpl; rewrite ?lookup_ge_None_2; try done;
        rewrite length_app; simpl; lia.
    + replace (S (length pre)) with (length (pre ++ [d]))
        by (rewrite length_app; simpl; lia).
      rewrite (IH (pre ++ [d]) rest' (S n)
                 (set_active_connections (pre ++ d :: rest') m)).
      * simpl.
        destruct (color_walk data (current_color m) false (S n) rest')
          as [t kept]. simpl.
        by rewrite <- (assoc_L (++)).
      * simpl. by rewrite <- (assoc_L (++)).
      * by rewrite <- (assoc_L (++)).
      * simpl in Hlen. lia.
Qed.

(** X6. Over a list of connections without repetition, the colour broadcast
    is this walk: each socket in turn is sent the message; a socket whose
    send fails is dropped from the list, and the socket that follows it is
    passed over, neither sent the message nor dropped; the rest of the
    manager is untouched. *)
Theorem color_broadcast_walk color n m :
  NoDup (active_connections m) ->
  let walk :=
    color_walk (color_change color (clock n)) color false n
      (active_connections m)
  in
  broadcast_color_change color n m
  = (Ret tt,
     set_active_connections walk.2 (set_current_color color m),
     walk.1).
Proof.
  intros Hnd. simpl. rewrite broadcast_color_change_eq. unfold for_connection.
  by rewrite (color_walk_loop _ _ [] (active_connections m)).
Qed.

Lemma sends_to_reliable data color n l :
  (forall k c, send_ok k c = true) ->
  sends_to data color n l = (fun c => mkSend c data true color) <$> l.
Proof.
  intros Hok. revert n. induction l as [|c l IH]; intros n; [done |].
  simpl. by rewrite Hok, IH.
Qed.

(** X7. On a transport that lets every send through, an accepted colour
    request returns with the new colour set and the registry as it was,
    and its log is, in the order of the registry, one delivered
    [color_change] of that colour for each entry of the registry and
    nothing else: exactly one for each connection when the registry holds
    no connection twice. *)
Theorem reliable_set_color_reaches_everyone
  websocket message_data color n m :
  (forall k c, send_ok k c = true) ->
  dict_get message_data "type" = Some "color_change" ->
  dict_get message_data "color" = Some color ->
  controller m = Some websocket ->
  recognised color ->
  let result := websocket_endpoint_receive websocket message_data n m in
  result
  = (Ret tt, set_current_color color m,
     (fun c => mkSend c (color_change color (clock n)) true color)
       <$> active_connections m)
  /\ (NoDup (active_connections m) -> NoDup (recipient <$> result.2)).
Proof.
  intros Hok Htype Hcolor Hctrl Hrec. simpl.
  rewrite (websocket_endpoint_receive_accepted _ _ _ _ _ Htype Hcolor Hctrl
             Hrec).
  rewrite broadcast_color_change_all_delivered by done.
  rewrite sends_to_reliable by done. split; [done |].
  intros Hnd. simpl.
  assert (forall l : list WebSocket,
            recipient
              <$> ((fun c => mkSend c (color_change color (clock n)) true
                                color) <$> l)
            = l) as Hrecipients.
  { induction l as [|x l IH]; [done |]. simpl. f_equal. exact IH. }
  by rewrite Hrecipients.
Qed.

(** ** A whole session *)

Lemma websocket_endpoint_receive_complete websocket message_data n m :
  complete message_data ->
  exists m1 t1,
    websocket_endpoint_receive websocket message_data n m = (Ret tt, m1, t1)
    /\ active_connections m1 `sublist_of` active_connections m
    /\ (forall c, controller m = Some c -> controller m1 = Some c).
Proof.
  intros (type & Htype & Hcolor).
  destruct (websocket_endpoint_receive_cases websocket message_data n m)
    as [_|(color & _ & _ & _ & _ & ->)].
  - unfold websocket_endpoint_receive, bind, getitem, get, ret.
    rewrite Htype. simpl.
    destruct (bool_decide (type = "color_change")) eqn:Hty; simpl;
      [|by eexists _, _].
    apply bool_decide_eq_true in Hty.
    destruct (Hcolor Hty) as [color ->]. simpl.
    case_bool_decide; simpl; [|by eexists _, _].
    case_bool_decide; simpl; [|by eexists _, _].
    destruct (broadcast_color_change_fields color n m)
      as (m' & t & -> & Hctrl & _ & _ & Hsub).
    exists m', t. split_and!; [done..|].
    intros c. by rewrite Hctrl.
  - destruct (broadcast_color_change_fields color n m)
      as (m' & t & -> & Hctrl & _ & _ & Hsub).
    exists m', t. split_and!; [done..|]. intros c. by rewrite Hctrl.
Qed.

(** A socket whose sends all go through is not taken off the list by a
    colour broadcast. *)
Lemma color_change_loop_keeps data fuel i n m c :
  (forall k, send_ok k c = true) ->
  c ∈ active_connections m ->
  c ∈ active_connections
        (for_connection_from fuel i (color_change_round data) n m).1.2.
Proof.
  intros Hok. revert i n m. induction fuel as [|fuel IH]; intros i n m Hc;
    [done |].
  simpl. destruct (active_connections m !! i) as [x|] eqn:Hi; [|done].
  assert (x ∈ active_connections m) as Hx by by eapply list_elem_of_lookup_2.
  destruct (color_change_round_eq data x n m Hx) as (m1 & Hround & Hm1).
  unfold bind. rewrite Hround. simpl.
  assert (c ∈ active_connections m1) as Hc1.
  { destruct (send_ok n x) eqn:Hokx; [by subst |].
    destruct Hm1 as (l & Hl & ->). simpl.
    eapply list_remove_other; [done | | done].
    intros ->. by rewrite Hok in Hokx. }
  specialize (IH (S i) (S n) m1 Hc1).
  by destruct (for_connection_from fuel (S i) _ (S n) m1) as [[r m2] t2].
Qed.

Lemma websocket_endpoint_receive_keeps websocket message_data n m c :
  (forall k, send_ok k c = true) ->
  c ∈ active_connections m ->
  c ∈ active_connections
        (websocket_endpoint_receive websocket message_data n m).1.2.
Proof.
  intros Hok Hc.
  destruct (websocket_endpoint_receive_cases websocket message_data n m)
    as [[-> _]|(color & _ & _ & _ & _ & ->)]; [done |].
  rewrite broadcast_color_change_eq. unfold for_connection.
  by apply color_change_loop_keeps.
Qed.

Lemma receive_loop_closed websocket good rest n m :
  Forall complete good ->
  exists m' t,
    receive_loop websocket ((Text <$> good) ++ Closed :: rest) n m
    = (Raise WebSocketDisconnect, m', t)
    /\ active_connections m' `sublist_of` active_connections m.
Proof.
  intros Hgood. revert n m.
  induction Hgood as [|d good Hd Hgood IH]; intros n m.
  - simpl. by eexists _, _.
  - rewrite fmap_cons, <- app_comm_cons. cbn [receive_loop].
    destruct (websocket_endpoint_receive_complete websocket d n m Hd)
      as (m1 & t1 & H1 & Hsub1 & _).
    unfold bind. rewrite H1.
    destruct (IH (length t1 + n) m1) as (m' & t & -> & Hsub).
    eexists _, _. split; [done | by etrans].
Qed.

Lemma receive_loop_crash websocket good f rest n m c :
  Forall complete good ->
  crashing f ->
  (forall k, send_ok k c = true) ->
  c ∈ active_connections m ->
  exists e m' t,
    receive_loop websocket ((Text <$> good) ++ f :: rest) n m
    = (Raise e, m', t)
    /\ e <> WebSocketDisconnect
    /\ c ∈ active_connections m'
    /\ (forall x, controller m = Some x -> controller m' = Some x).
Proof.
  intros Hgood Hf Hok. revert n m.
  induction Hgood as [|d good Hd Hgood IH]; intros n m Hc.
  - simpl. destruct Hf as [->|(d & -> & Hd)].
    + by exists ValueError, m, [].
    + unfold bind, websocket_endpoint_receive, bind, getitem. rewrite Hd.
      by exists KeyError, m, [].
  - rewrite fmap_cons, <- app_comm_cons. cbn [receive_loop].
    destruct (websocket_endpoint_receive_complete websocket d n m Hd)
      as (m1 & t1 & H1 & _ & Hctrl1).
    pose proof (websocket_endpoint_receive_keeps websocket d n m c Hok Hc)
      as Hc1.
    unfold bind. rewrite H1 in *. simpl in Hc1.
    destruct (IH (length t1 + n) m1 Hc1) as (e & m' & t & -> & He & ? & Hctrl).
    exists e, m', (t1 ++ t). split_and!; try done.
    intros x Hx. by apply Hctrl, Hctrl1.
Qed.

(** X8. A session that is accepted, reads frames none of which lacks a key
    it looks up, and then sees the connection closed, returns; afterwards
    its socket is not registered, and nobody has been added to the list
    that was there before. The socket is new to a list without
    repetition. *)
Theorem closed_session_is_unregistered websocket user_id good rest n m :
  accept_ok websocket = true ->
  websocket ∉ active_connections m ->
  NoDup (active_connections m) ->
  Forall complete good ->
  exists m' t,
    websocket_endpoint websocket user_id
      ((Text <$> good) ++ Closed :: rest) n m
    = (Ret Finished, m', t)
    /\ (websocket ∉ active_connections m')
    /\ active_connections m' `sublist_of` active_connections m.
Proof.
  intros Hacc Hnew Hnd Hgood. unfold websocket_endpoint, bind.
  rewrite connect_accepted by done.
  set (m1 := if bool_decide (controller m = None) then _ else _).
  set (t1 := mkSend websocket _ _ _ :: _).
  assert (active_connections m1 = active_connections m ++ [websocket])
    as Hm1 by (subst m1; by case_bool_decide).
  destruct (receive_loop_closed websocket good rest (length t1 + n) m1 Hgood)
    as (m2 & t2 & Hloop & Hsub2).
  unfold except_WebSocketDisconnect. rewrite Hloop.
  destruct (disconnect_returns websocket (length t2 + (length t1 + n)) m2)
    as (b & m3 & Hd).
  unfold bind. rewrite (websocket_endpoint_disconnect_eq _ _ _ _ _ Hd).
  simpl. eexists _, _. split; [done |].
  assert (NoDup (active_connections m2)) as Hnd2.
  { assert (NoDup (active_connections m1)) as Hnd1.
    { rewrite Hm1.
      apply NoDup_app. split_and!; [done | | apply NoDup_singleton].
      intros x Hx ->%list_elem_of_singleton. done. }
    eauto using sublist_NoDup. }
  assert (active_connections m3
          = default (active_connections m2)
              (list_remove websocket (active_connections m2))) as Hm3.
  { rewrite <- disconnect_connections with (n := length t2 + (length t1 + n)).
    by rewrite Hd. }
  rewrite Hm3.
  destruct (list_remove websocket (active_connections m2)) as [l|] eqn:E;
    simpl.
  - destruct (list_remove_NoDup _ _ _ Hnd2 E) as [Hnot _].
    split; [done |].
    assert (l `sublist_of` active_connections m ++ [websocket]) as Hl.
    { rewrite <- Hm1. etrans; [by eapply list_remove_sublist | done]. }
    apply sublist_app_r in Hl as (l1 & l2 & -> & Hl1 & Hl2).
    destruct l2 as [|x l2].
    + by rewrite app_nil_r.
    + apply sublist_cons_l in Hl2 as (k1 & k2 & Hk & _).
      destruct k1 as [|? [|? ?]]; simplify_eq/=.
      exfalso. apply Hnot, elem_of_app. right. apply list_elem_of_here.
  - apply list_remove_None in E. split; [done |].
    assert (active_connections m2
            `sublist_of` active_connections m ++ [websocket]) as Hl
      by by rewrite <- Hm1.
    apply sublist_app_r in Hl as (l1 & l2 & Hl & Hl1 & Hl2).
    rewrite Hl in *. destruct l2 as [|x l2].
    + by rewrite app_nil_r.
    + apply sublist_cons_l in Hl2 as (k1 & k2 & Hk & _).
      destruct k1 as [|? [|? ?]]; simplify_eq/=.
      exfalso. apply E, elem_of_app. right. apply list_elem_of_here.
Qed.

(** X9. A session that is accepted and then reads a text that is not JSON,
    or an object without a type, after frames that were in order, ends in
    an exception that the endpoint does not catch, so that no teardown is
    run: if its own sends go through, the socket is still registered
    afterwards, and it is still controller if it joined a manager without
    one. *)
Theorem crashed_session_stays_registered
  websocket user_id good f rest n m :
  accept_ok websocket = true ->
  (forall k, send_ok k websocket = true) ->
  Forall complete good ->
  crashing f ->
  exists e m' t,
    websocket_endpoint websocket user_id
      ((Text <$> good) ++ f :: rest) n m
    = (Raise e, m', t)
    /\ websocket ∈ active_connections m'
    /\ (controller m = None -> controller m' = Some websocket).
Proof.
  intros Hacc Hok Hgood Hf. unfold websocket_endpoint, bind.
  rewrite connect_accepted by done.
  set (m1 := if bool_decide (controller m = None) then _ else _).
  set (t1 := mkSend websocket _ _ _ :: _).
  assert (websocket ∈ active_connections m1) as Hin.
  { subst m1. case_bool_decide; simpl; apply elem_of_app; right;
      apply list_elem_of_here. }
  destruct (receive_loop_crash websocket good f rest (length t1 + n) m1
              websocket Hgood Hf Hok Hin)
    as (e & m2 & t2 & Hloop & He & Hin2 & Hctrl).
  unfold except_WebSocketDisconnect. rewrite Hloop.
  exists e, m2, (t1 ++ t2). split_and!.
  - by destruct e.
  - done.
  - intros Hnone. apply Hctrl. subst m1.
    by rewrite bool_decide_eq_true_2.
Qed.

(** ** The page and the server *)

Lemma changeColor_Some color open page d :
  changeColor color open page = Some d ->
  d = [("type", "color_change"); ("color", color)]
  /\ open = true /\ isController page = true.
Proof.
  unfold changeColor. destruct open, (isController page); simpl; [|done..].
  by intros [= <-].
Qed.

(** X10. A frame that the page sends, by one of its four buttons or by a
    key, is sent only while the page holds itself for the controller over
    an open connection, and is a request for a colour that the server
    recognises: coming from the controller it is read without error and
    sets the colour of the light. *)
Theorem page_frames_are_accepted
  key button open page message_data websocket n m :
  keydown key open page = Some message_data
  \/ (button ∈ button_colors
      /\ changeColor button open page = Some message_data) ->
  controller m = Some websocket ->
  exists color,
    message_data = [("type", "color_change"); ("color", color)]
    /\ recognised color
    /\ open = true
    /\ isController page = true
    /\ (websocket_endpoint_receive websocket message_data n m).1.1 = Ret tt
    /\ current_color (websocket_endpoint_receive websocket message_data n m).1.2
       = color.
Proof using send_ok clock.
  intros Hsent Hctrl.
  assert (exists color,
            recognised color
            /\ changeColor color open page = Some message_data)
    as (color & Hrec & Hsend).
  { destruct Hsent as [Hkey|[Hb Hsend]]; [|by exists button].
    unfold keydown in Hkey. destruct (negb (isController page)); [done |].
    unfold recognised.
    repeat case_decide; try done; eexists; (split; [|exact Hkey]);
      repeat first [apply list_elem_of_here | apply list_elem_of_further]. }
  apply changeColor_Some in Hsend as (-> & -> & Hpage).
  exists color. split_and!; try done.
  - rewrite (websocket_endpoint_receive_accepted _ _ color) by done.
    by destruct (broadcast_color_change_fields color n m)
      as (m' & t & -> & _).
  - rewrite (websocket_endpoint_receive_accepted _ _ color) by done.
    by destruct (broadcast_color_change_fields color n m)
      as (m' & t & -> & _ & _ & Hcol & _).
Qed.

Lemma onmessage_state_update color flag cid ts page :
  onmessage (state_update color flag cid ts) page
  = shown color flag (userCount page) (controllerName page).
Proof.
  unfold onmessage, updateUserRole, updateLights, set_isController, shown.
  simpl. f_equal; repeat case_decide; congruence.
Qed.

Lemma onmessage_user_update total cid color flag total0 name0 :
  onmessage (user_update total cid) (shown color flag total0 name0)
  = shown color flag total (controller_name_text cid).
Proof. done. Qed.

Lemma onmessage_color_change color ts color0 flag total name :
  onmessage (color_change color ts) (shown color0 flag total name)
  = shown color flag total name.
Proof.
  unfold onmessage, updateLights, shown. simpl.
  f_equal; repeat case_decide; congruence.
Qed.

Lemma receive_log_app c t1 t2 page :
  receive_log c (t1 ++ t2) page = receive_log c t2 (receive_log c t1 page).
Proof. apply foldl_app. Qed.

Lemma receive_log_cons c s t page :
  receive_log c (s :: t) page
  = receive_log c t
      (if delivered s && bool_decide (recipient s = c)
       then onmessage (payload s) page
       else page).
Proof. done. Qed.

Section Reliable.

Hypothesis reliable : forall k c, send_ok k c = true.

Lemma receive_log_sends_to c data color n l page :
  NoDup l ->
  receive_log c (sends_to data color n l) page
  = if bool_decide (c ∈ l) then onmessage data page else page.
Proof.
  intros Hnd. revert n page.
  induction Hnd as [|x l Hx Hnd IH]; intros n page; [done |].
  cbn [sends_to]. rewrite receive_log_cons, IH.
  cbn [delivered recipient payload]. rewrite reliable. cbn [andb].
  destruct (decide (x = c)) as [->|Hxc].
  - rewrite (bool_decide_eq_true_2 (c = c)) by done.
    rewrite (bool_decide_eq_true_2 (c ∈ c :: l)) by apply list_elem_of_here.
    by rewrite bool_decide_eq_false_2.
  - rewrite (bool_decide_eq_false_2 (x = c)) by done.
    destruct (decide (c ∈ l)) as [Hc|Hc].
    + rewrite !bool_decide_eq_true_2; [done | | done].
      by apply list_elem_of_further.
    + rewrite !bool_decide_eq_false_2; [done | | done].
      rewrite not_elem_of_cons. split; [congruence | done].
Qed.

Lemma receive_log_role_corrections c p color cid n l page :
  NoDup l ->
  receive_log c (role_corrections p color cid n l) page
  = if bool_decide (c ∈ l /\ c <> p)
    then shown color false (userCount page) (controllerName page)
    else page.
Proof.
  intros Hnd. revert n page.
  induction Hnd as [|x l Hx Hnd IH]; intros n page; cbn [role_corrections].
  { rewrite bool_decide_eq_false_2; [done |]. intros [[]%elem_of_nil _]. }
  assert ((c ∈ x :: l /\ c <> p)
          <-> (x = c /\ x <> p) \/ (x <> c /\ c ∈ l /\ c <> p)) as Hiff.
  { rewrite elem_of_cons. destruct (decide (x = c)) as [->|?]; [tauto |].
    intuition congruence. }
  rewrite (bool_decide_ext _ _ Hiff). clear Hiff.
  destruct (decide (x = p)) as [->|Hxp].
  - rewrite (bool_decide_eq_false_2 (p <> p)) by tauto. rewrite IH.
    apply (f_equal (fun b : bool => if b then _ else _)).
    apply bool_decide_ext. intuition congruence.
  - rewrite (bool_decide_eq_true_2 (x <> p)) by done.
    rewrite receive_log_cons, IH.
    cbn [delivered recipient payload]. rewrite reliable. cbn [andb].
    destruct (decide (x = c)) as [->|Hxc].
    + rewrite (bool_decide_eq_true_2 (c = c)) by done.
      rewrite onmessage_state_update.
      rewrite (bool_decide_eq_false_2 (c ∈ l /\ c <> p)) by tauto.
      by rewrite bool_decide_eq_true_2 by tauto.
    + rewrite (bool_decide_eq_false_2 (x = c)) by done.
      apply (f_equal (fun b : bool => if b then _ else _)).
      apply bool_decide_ext. tauto.
Qed.

Lemma connect_pages w user_id n m pages :
  controller_invariant m ->
  NoDup (active_connections m ++ [w]) ->
  (forall c, c ∈ active_connections m -> pages c = page_of m c) ->
  let result := websocket_endpoint_connect w user_id n m in
  forall c, c ∈ active_connections result.1.2 ->
    receive_log c result.2 (pages c) = page_of result.1.2 c.
Proof.
  intros [Hin Hnone] Hnd Hpages. simpl.
  unfold websocket_endpoint_connect, bind, ret.
  destruct (accept_ok w) eqn:Hacc.
  2:{ rewrite connect_refused by done. simpl. exact Hpages. }
  rewrite connect_accepted by done.
  cbn -[receive_log sends_to page_of]. rewrite app_nil_r.
  assert (w ∉ active_connections m) as Hw.
  { apply NoDup_app in Hnd as (_ & Hdisj & _).
    intros Hin'. apply (Hdisj w Hin'), list_elem_of_here. }
  set (m1 := if bool_decide (controller m = None) then _ else _).
  assert (active_connections m1 = active_connections m ++ [w]) as Hconns
    by (subst m1; by case_bool_decide).
  assert (current_color m1 = current_color m) as Hcol
    by (subst m1; by case_bool_decide).
  assert (forall c, c ∈ active_connections m ++ [w] ->
            bool_decide (controller m1 = Some c)
            = if decide (c = w) then bool_decide (controller m = None)
              else bool_decide (controller m = Some c)) as Hflag.
  { intros c Hc. subst m1. case_bool_decide as Hctrl; simpl.
    - case_decide as Hcw; [by rewrite bool_decide_eq_true_2 by congruence |].
      apply elem_of_app in Hc as [Hc|Hc%list_elem_of_singleton]; [|done].
      apply Hnone in Hctrl. rewrite Hctrl in Hc. by apply elem_of_nil in Hc.
    - case_decide as Hcw; [|done]. subst c.
      apply bool_decide_eq_false_2. intros Hcw. by apply Hin in Hcw. }
  rewrite Hconns. intros c Hc.
  rewrite receive_log_cons. cbn [delivered recipient payload].
  rewrite reliable. cbn [andb].
  rewrite receive_log_sends_to by done.
  rewrite (bool_decide_eq_true_2 _ Hc).
  unfold page_of. rewrite ?Hconns, ?Hcol, (Hflag c Hc).
  destruct (decide (c = w)) as [->|Hcw].
  - rewrite (bool_decide_eq_true_2 (w = w)) by done.
    by rewrite onmessage_state_update, onmessage_user_update.
  - rewrite (bool_decide_eq_false_2 (w = c)) by congruence.
    apply elem_of_app in Hc as [Hc|Hc%list_elem_of_singleton]; [|done].
    rewrite (Hpages c Hc). unfold page_of.
    by rewrite onmessage_user_update.
Qed.

Lemma receive_pages w message_data n m pages :
  controller_invariant m ->
  NoDup (active_connections m) ->
  (forall c, c ∈ active_connections m -> pages c = page_of m c) ->
  let result := websocket_endpoint_receive w message_data n m in
  controller_invariant result.1.2 /\
  forall c, c ∈ active_connections result.1.2 ->
    receive_log c result.2 (pages c) = page_of result.1.2 c.
Proof.
  intros Hinv Hnd Hpages. simpl.
  destruct (websocket_endpoint_receive_cases w message_data n m)
    as [[-> ->]|(color & _ & _ & _ & _ & ->)]; [done |].
  rewrite broadcast_color_change_all_delivered by done. simpl.
  split; [done |]. intros c Hc.
  rewrite receive_log_sends_to, (bool_decide_eq_true_2 _ Hc) by done.
  rewrite (Hpages c Hc). unfold page_of.
  by rewrite onmessage_color_change.
Qed.

Lemma disconnect_pages w n m pages :
  NoDup (active_connections m) ->
  (forall c, c ∈ active_connections m -> pages c = page_of m c) ->
  let result := websocket_endpoint_disconnect w n m in
  forall c, c ∈ active_connections result.1.2 ->
    receive_log c result.2 (pages c) = page_of result.1.2 c.
Proof.
  intros Hnd Hpages. simpl.
  destruct (list_remove w (active_connections m)) as [l|] eqn:E.
  2:{ apply list_remove_None in E.
      rewrite (websocket_endpoint_disconnect_eq w n m false m)
        by by apply disconnect_absent.
      simpl. intros c Hc.
      rewrite receive_log_sends_to, (bool_decide_eq_true_2 _ Hc) by done.
      rewrite (Hpages c Hc). unfold page_of.
      by rewrite onmessage_user_update. }
  destruct (list_remove_NoDup _ _ _ Hnd E) as [_ Hndl].
  assert (forall c, c ∈ l -> pages c = page_of m c) as Hpl.
  { intros c Hc. apply Hpages.
    eapply sublist_subseteq; [by eapply list_remove_sublist | done]. }
  pose proof (disconnect_present w n m l E) as Hd.
  destruct (bool_decide (Some w = controller m)) eqn:Hctrl.
  2:{ rewrite (websocket_endpoint_disconnect_eq _ _ _ _ _ Hd). simpl.
      intros c Hc.
      rewrite receive_log_sends_to, (bool_decide_eq_true_2 _ Hc) by done.
      rewrite (Hpl c Hc). unfold page_of.
      by rewrite onmessage_user_update. }
  destruct l as [|first rest]; simpl in Hd.
  { rewrite (websocket_endpoint_disconnect_eq _ _ _ _ _ Hd). simpl.
    by intros c Hc%elem_of_nil. }
  rewrite (websocket_endpoint_disconnect_eq _ _ _ _ _ Hd).
  rewrite broadcast_new_controller_eq. cbn -[receive_log role_corrections
    sends_to page_of]. intros c Hc.
  rewrite receive_log_cons, receive_log_app.
  cbn [delivered recipient payload]. rewrite reliable. cbn [andb].
  rewrite receive_log_role_corrections by done.
  rewrite receive_log_sends_to, (bool_decide_eq_true_2 _ Hc) by done.
  rewrite (Hpl c Hc). unfold page_of. cbn [current_color controller
    controller_id active_connections set_controller].
  destruct (decide (first = c)) as [->|Hfc].
  - rewrite (bool_decide_eq_true_2 (c = c)) by done.
    rewrite (bool_decide_eq_false_2 (c ∈ c :: rest /\ c <> c)) by tauto.
    rewrite (bool_decide_eq_true_2 (Some c = Some c)) by done.
    by rewrite onmessage_state_update, onmessage_user_update.
  - rewrite (bool_decide_eq_false_2 (first = c)) by done.
    rewrite (bool_decide_eq_true_2 (c ∈ first :: rest /\ c <> first))
      by (split; [done | congruence]).
    rewrite (bool_decide_eq_false_2 (Some first = Some c)) by congruence.
    by rewrite onmessage_user_update.
Qed.

Lemma handle_pages e n m pages :
  controller_invariant m ->
  NoDup (active_connections m ++ connects [e]) ->
  (forall c, c ∈ active_connections m -> pages c = page_of m c) ->
  let result := handle e n m in
  controller_invariant result.1.2 /\
  forall c, c ∈ active_connections result.1.2 ->
    receive_log c result.2 (pages c) = page_of result.1.2 c.
Proof.
  intros Hinv Hnd Hpages. destruct e as [w uid|w d|w].
  - split; [by apply handle_membership_invariant |].
    by apply connect_pages.
  - simpl in Hnd. rewrite app_nil_r in Hnd. by apply receive_pages.
  - split; [by apply handle_membership_invariant |].
    simpl in Hnd. rewrite app_nil_r in Hnd. by apply disconnect_pages.
Qed.

Lemma run_pages events n m pages :
  controller_invariant m ->
  NoDup (active_connections m ++ connects events) ->
  (forall c, c ∈ active_connections m -> pages c = page_of m c) ->
  forall c, c ∈ active_connections (run events n m).1 ->
    receive_log c (run events n m).2 (pages c) = page_of (run events n m).1 c.
Proof.
  revert n m pages.
  induction events as [|e events IH]; intros n m pages Hinv Hnd Hpages.
  { simpl. exact Hpages. }
  cbn [run].
  assert (NoDup (active_connections m ++ connects [e])) as Hnde.
  { rewrite (connects_cons e events), (assoc_L (++)) in Hnd.
    by apply NoDup_app in Hnd as (? & _). }
  assert (NoDup (active_connections (handle e n m).1.2 ++ connects events))
    as Hnd1.
  { rewrite (connects_cons e events), (assoc_L (++)) in Hnd.
    assert (active_connections (handle e n m).1.2 ++ connects events
            `sublist_of`
            (active_connections m ++ connects [e]) ++ connects events)
      as Hsub by (apply sublist_app; [apply handle_sublist | done]).
    eauto using sublist_NoDup. }
  destruct (handle_pages e n m pages Hinv Hnde Hpages) as [Hinv1 Hp1].
  destruct (handle e n m) as [[r m1] t1]. cbn [fst snd] in *.
  specialize (IH (length t1 + n) m1
                (fun c => receive_log c t1 (pages c)) Hinv1 Hnd1 Hp1).
  destruct (run events (length t1 + n) m1) as [m2 t2]. cbn [fst snd] in *.
  intros c Hc. rewrite receive_log_app. by apply IH.
Qed.

End Reliable.

(** X11. On a transport that lets every send through and with no socket
    opening two sessions, after any events the page of every registered
    connection, whatever it showed at the start, shows the state of the
    manager: the lamp of the current colour, its own role, the number of
    registered connections and the reported controller name. *)
Theorem pages_agree_with_manager events n pages c :
  (forall k x, send_ok k x = true) ->
  NoDup (connects events) ->
  c ∈ active_connections (run events n init).1 ->
  receive_log c (run events n init).2 (pages c)
  = page_of (run events n init).1 c.
Proof.
  intros Hok Hnd. apply (run_pages Hok events n init pages).
  - apply init_invariant.
  - done.
  - by intros x Hx%elem_of_nil.
Qed.

(** ** Coming and going *)

Lemma handle_membership_color e n m :
  membership e -> current_color (handle e n m).1.2 = current_color m.
Proof.
  destruct e as [w uid|w d|w]; intros He; [|done|].
  - rewrite handle_connect_manager.
    by destruct (connect_fields w uid n m) as [-> _].
  - cbn [handle]. rewrite websocket_endpoint_disconnect_manager. simpl.
    destruct (list_remove w (active_connections m)) as [l|] eqn:E.
    + rewrite (disconnect_present _ _ _ _ E).
      case_bool_decide; [destruct l|]; done.
    + apply list_remove_None in E. by rewrite disconnect_absent.
Qed.

(** X12. Connects and disconnects never change the colour of the light,
    from any state and on any transport: it stays as it is when an
    observer or the controller leaves, and when everybody has left. *)
Theorem color_survives_membership_events events n m :
  Forall membership events ->
  current_color (run events n m).1 = current_color m.
Proof.
  intros Hev. revert n m.
  induction Hev as [|e events He Hev IH]; intros n m; [done |].
  cbn [run]. pose proof (handle_membership_color e n m He) as H1.
  destruct (handle e n m) as [[r m1] t1]. cbn [fst snd] in H1.
  specialize (IH (length t1 + n) m1).
  destruct (run events (length t1 + n) m1) as [m2 t2]. cbn [fst] in *.
  congruence.
Qed.

(** X13. A session that opens and is torn down at once leaves the manager
    exactly as it found it, whether the socket was accepted or not: the
    socket is new to the list, and the manager is in a state where the
    controller is registered and where no controller means no connection
    and no reported identity. *)
Theorem connect_disconnect_round_trip w user_id n m :
  w ∉ active_connections m ->
  controller_invariant m ->
  (controller m = None -> controller_id m = None) ->
  (run [Connect w user_id; Disconnect w] n m).1 = m.
Proof.
  intros Hw [Hin Hnone] Hid. cbn [run].
  pose proof (handle_connect_manager w user_id n m) as H1.
  destruct (handle (Connect w user_id) n m) as [[r1 m1] t1].
  cbn [fst snd] in H1. subst m1.
  pose proof (websocket_endpoint_disconnect_manager w (length t1 + n)
                (connect w user_id n m).1.2) as H2.
  cbn [handle].
  destruct (websocket_endpoint_disconnect w (length t1 + n)
              (connect w user_id n m).1.2) as [[r2 m2] t2].
  cbn [fst snd] in *. injection H2 as _ ->.
  destruct (accept_ok w) eqn:Hacc.
  2:{ rewrite connect_refused by done. cbn [fst snd].
      by rewrite disconnect_absent. }
  rewrite connect_accepted by done. cbn [fst snd].
  assert (list_remove w (active_connections m ++ [w])
          = Some (active_connections m)) as Hl.
  { rewrite (list_remove_app_notin w _ [] Hw). by rewrite app_nil_r. }
  case_bool_decide as Hc.
  - rewrite (disconnect_present _ _ _ (active_connections m)) by done.
    simpl. rewrite bool_decide_eq_true_2 by done.
    pose proof (proj1 Hnone Hc) as Hempty. specialize (Hid Hc).
    destruct m as [conns ctrl color cid]. simpl in *. by subst.
  - rewrite (disconnect_present _ _ _ (active_connections m)) by done.
    simpl. rewrite bool_decide_eq_false_2.
    + by destruct m.
    + intros Heq. apply Hw, Hin. done.
Qed.

End Manager.

(** ** Concrete runs *)

Ltac by_evaluation := apply (bool_decide_unpack _); vm_compute; exact I.

Lemma three_connected_reached :
  (run transport_up accept_all noon alice_bob_carol 0 init).1
  = three_connected.
Proof. reflexivity. Qed.

Lemma blue_not_recognised : ~ recognised "blue".
Proof. by_evaluation. Qed.

Lemma controller_invariant_witness :
  Forall membership (alice_bob_carol ++ [Disconnect 1]) /\
  controller_invariant
    (run transport_up accept_all noon
       (take 4 (alice_bob_carol ++ [Disconnect 1])) 0 init).1.
Proof.
  assert (Forall membership (alice_bob_carol ++ [Disconnect 1])) as H
    by (repeat constructor).
  split; [exact H |].
  exact (controller_invariant_after_each_membership_event
           transport_up accept_all noon _ 4 0 H).
Defined.

Lemma rejected_set_color_witness :
  websocket_endpoint_receive transport_up noon 2 red_request 0 three_connected
  = (Ret tt, three_connected, []) /\
  websocket_endpoint_receive transport_up noon 1 blue_request 0 three_connected
  = (Ret tt, three_connected, []).
Proof.
  split.
  - apply (rejected_set_color_is_ignored transport_up noon 2 red_request
             "red" 0 three_connected); [reflexivity | reflexivity |].
    left. discriminate.
  - apply (rejected_set_color_is_ignored transport_up noon 1 blue_request
             "blue" 0 three_connected); [reflexivity | reflexivity |].
    right. exact blue_not_recognised.
Defined.

Lemma accepted_set_color_witness :
  let result :=
    websocket_endpoint_receive transport_down noon 1 red_request 0
      three_connected in
  result.1.1 = Ret tt
  /\ (forall s, s ∈ result.2 -> color_at_send s = "red")
  /\ current_color result.1.2 = "red"
  /\ status_current_color (get_status result.1.2) = "red".
Proof.
  destruct (accepted_set_color_assigns_before_sending transport_down noon
              1 red_request "red" 0 three_connected)
    as (_ & Hrest);
    [reflexivity | reflexivity | reflexivity | by_evaluation |].
  exact Hrest.
Defined.

(** The run of the witness: both sends that are attempted fail, and both
    are attempted with the colour already red. *)
Lemma accepted_set_color_log :
  (websocket_endpoint_receive transport_down noon 1 red_request 0
     three_connected).2
  = [mkSend 1 (color_change "red" "12:00:00") false "red";
     mkSend 3 (color_change "red" "12:00:00") false "red"].
Proof. reflexivity. Qed.

(** C4. Alice joins, then Bob, and every send of the two joins is delivered.
    Alice, the controller, asks for red; the send to her own socket fails and
    the colour broadcast takes her off the list of connections. Then her
    session closes: [disconnect] does not find her on the list, returns
    [False] and promotes nobody. Bob, the one surviving connection, is
    registered and is not the controller; the controller is still the socket
    that left, and the status still names alice. *)
Theorem pruned_controller_is_not_replaced :
  let m := (run (transport_lost_from 5 1) accept_all noon alice_asks_red 0
              init).1 in
  let after :=
    (handle (transport_lost_from 5 1) accept_all noon (Disconnect 1) 6
       m).1.2 in
  controller m = Some 1
  /\ active_connections m = [2]
  /\ disconnect 1 6 m = (Ret false, m, [])
  /\ active_connections after = [2]
  /\ controller after = Some 1
  /\ get_status after
     = {| status_current_color := "red";
          status_total_users := 1;
          status_controller_id := Some "alice" |}.
Proof. split_and!; reflexivity. Qed.

Lemma promotion_earliest_witness :
  exists p m',
    disconnect 1 0 three_connected = (Ret true, m', [])
    /\ controller m' = Some p
    /\ p ∈ active_connections m'
    /\ (forall c, c ∈ active_connections m'
                  <-> c ∈ active_connections three_connected /\ c <> 1)
    /\ (forall c, c ∈ active_connections m' -> c <> p ->
          joined_before alice_bob_carol p c
          /\ ~ joined_before alice_bob_carol c p).
Proof.
  apply (promotion_prefers_earliest_joined transport_up accept_all noon
           alice_bob_carol 0 1 0).
  - by_evaluation.
  - reflexivity.
  - by_evaluation.
  - exists 2. split; [by_evaluation | discriminate].
Defined.

Lemma promotion_role_correction_witness :
  let result :=
    websocket_endpoint_disconnect transport_up noon 1 0 three_connected in
  exists p,
    controller result.1.2 = Some p /\ p ∈ active_connections result.1.2 /\
    (exists s ts,
       s ∈ result.2 /\ recipient s = p /\
       payload s
       = state_update (current_color result.1.2) true
           (controller_id result.1.2) ts) /\
    (forall c, c ∈ active_connections result.1.2 -> c <> p ->
       exists s ts,
         s ∈ result.2 /\ recipient s = c /\
         payload s
         = state_update (current_color result.1.2) false
             (controller_id result.1.2) ts) /\
    (forall s color flag cid ts,
       s ∈ result.2 -> payload s = state_update color flag cid ts ->
       flag = bool_decide (recipient s = p)) /\
    faithful transport_up 0 result.2.
Proof.
  apply (promotion_role_correction transport_up noon 1 0 three_connected).
  reflexivity.
Defined.

Lemma disconnect_absent_witness :
  disconnect 7 0 three_connected = (Ret false, three_connected, []) /\
  disconnect 2 5 (disconnect 2 0 three_connected).1.2
  = (Ret false, (disconnect 2 0 three_connected).1.2, []).
Proof.
  split.
  - apply (disconnect_absent_is_noop 7 0 three_connected). by_evaluation.
  - apply (disconnect_absent_is_noop 2 0 three_connected). by_evaluation.
Defined.

Lemma user_update_counts_witness :
  let result := handle transport_up accept_all noon (Disconnect 1) 0
                  three_connected in
  (forall s total cid,
     s ∈ result.2 -> payload s = user_update total cid ->
     total = 2 /\ cid = None) /\
  (forall c, c ∈ [2; 3] ->
     exists s, s ∈ result.2 /\ recipient s = c /\
               payload s = user_update 2 None).
Proof.
  destruct (user_update_counts_registry transport_up accept_all noon
              (Disconnect 1) 0 three_connected I) as [Hcount Hall].
  split; [exact Hcount | exact (Hall eq_refl)].
Defined.

Lemma failed_send_witness :
  let result :=
    broadcast_color_change (transport_down_for 2) noon "red" 0
      three_connected in
  result.1.1 = Ret tt
  /\ forall s, s ∈ result.2 -> delivered s = false ->
       recipient s ∈ [1; 2; 3]
       /\ recipient s ∉ active_connections result.1.2.
Proof.
  destruct (failed_send_is_contained (transport_down_for 2) noon "red" 0
              three_connected) as (_ & _ & H).
  apply H. by_evaluation.
Defined.

(** C7 as the specification words it fails on the colour broadcast: Bob's
    send fails, and Bob, registered before the broadcast, is not registered
    after it. *)
Lemma failed_send_prunes_counterexample :
  let result :=
    broadcast_color_change (transport_down_for 2) noon "red" 0
      three_connected in
  2 ∈ active_connections three_connected
  /\ mkSend 2 (color_change "red" "12:00:00") false "red" ∈ result.2
  /\ 2 ∉ active_connections result.1.2.
Proof. split_and!; by_evaluation. Qed.

(** C3 at a failing input. Alice, Bob and Carol are connected and Bob's
    transport is gone. Alice's request for red is accepted; the send to Bob
    fails, Bob is taken off the list under the iterator, and the loop ends
    without a send to Carol, who is registered before and after. *)
Lemma color_broadcast_skips_after_failed_send :
  let result :=
    websocket_endpoint_receive (transport_down_for 2) noon 1 red_request 0
      three_connected in
  result
  = (Ret tt,
     {| active_connections := [1; 3];
        controller := Some 1;
        current_color := "red";
        controller_id := Some "alice" |},
     [mkSend 1 (color_change "red" "12:00:00") true "red";
      mkSend 2 (color_change "red" "12:00:00") false "red"])
  /\ 3 ∈ active_connections three_connected
  /\ 3 ∈ active_connections result.1.2
  /\ 3 ∉ recipient <$> result.2.
Proof. split_and!; [reflexivity | by_evaluation..]. Qed.

(** C6 at a failing input. Alice and Bob connect and Alice leaves: Bob is
    the controller, and [controller_id] is [None] in the manager, in
    [get_status] and in the messages that tell Bob of his promotion. *)
Lemma promoted_controller_has_no_identity :
  let result :=
    run transport_up accept_all noon
      [Connect 1 "alice"; Connect 2 "bob"; Disconnect 1] 0 init in
  result.1
  = {| active_connections := [2];
       controller := Some 2;
       current_color := "none";
       controller_id := None |}
  /\ get_status result.1
     = {| status_current_color := "none";
          status_total_users := 1;
          status_controller_id := None |}
  /\ drop 5 result.2
     = [mkSend 2 (state_update "none" true None "12:00:00") true "none";
        mkSend 2 (user_update 1 None) true "none"].
Proof. split_and!; reflexivity. Qed.

(** The invariant of C1 is one of connects and disconnects only: when the
    send to the controller fails during a colour broadcast, the controller
    is taken off the list and stays controller. *)
Lemma controller_pruned_by_failed_send :
  let result :=
    websocket_endpoint_receive (transport_down_for 1) noon 1 red_request 0
      three_connected in
  active_connections result.1.2 = [2; 3] /\ controller result.1.2 = Some 1.
Proof. split; reflexivity. Qed.

(** ** Concrete runs of the further properties *)

Lemma controller_tenure_witness :
  controller
    (handle transport_up accept_all noon (Connect 4 "dave") 0
       three_connected).1.2
  = Some 1.
Proof.
  apply (controller_tenure transport_up accept_all noon (Connect 4 "dave") 0
           three_connected 1); [reflexivity | discriminate].
Defined.

Lemma controller_id_names_the_controller_witness :
  exists websocket,
    controller (run transport_up accept_all noon alice_bob_carol 0 init).1
    = Some websocket
    /\ Connect websocket "alice" ∈ alice_bob_carol.
Proof.
  destruct (controller_id_names_the_controller transport_up accept_all noon
              alice_bob_carol 0) as [_ H].
  apply H. reflexivity.
Defined.

Lemma stale_controller_witness :
  let m' := (run transport_up accept_all noon life_goes_on 0
               alice_fell_off).1 in
  controller m' = Some 1
  /\ (1 ∉ active_connections m')
  /\ current_color m' = "red"
  /\ controller_id m' = Some "alice".
Proof.
  apply (stale_controller_is_never_replaced transport_up accept_all noon
           life_goes_on 0 alice_fell_off 1).
  - reflexivity.
  - by_evaluation.
  - repeat constructor; discriminate.
Defined.

Lemma registry_is_live_sessions_witness :
  3 ∈ active_connections
        (run transport_up accept_all noon
           (alice_bob_carol ++ [Disconnect 2]) 0 init).1
  <-> live accept_all (alice_bob_carol ++ [Disconnect 2]) 3.
Proof.
  apply (registry_is_live_sessions transport_up accept_all noon
           (alice_bob_carol ++ [Disconnect 2]) 0 3).
  - repeat constructor.
  - by_evaluation.
Defined.

Lemma color_broadcast_walk_witness :
  broadcast_color_change (transport_down_for 2) noon "red" 0 three_connected
  = (Ret tt,
     {| active_connections := [1; 3];
        controller := Some 1;
        current_color := "red";
        controller_id := Some "alice" |},
     [mkSend 1 (color_change "red" "12:00:00") true "red";
      mkSend 2 (color_change "red" "12:00:00") false "red"]).
Proof.
  apply (color_broadcast_walk (transport_down_for 2) noon "red" 0
           three_connected).
  by_evaluation.
Defined.

Lemma reliable_set_color_witness :
  let result :=
    websocket_endpoint_receive transport_up noon 1 red_request 0
      three_connected in
  result
  = (Ret tt, set_current_color "red" three_connected,
     (fun c => mkSend c (color_change "red" (noon 0)) true "red")
       <$> active_connections three_connected)
  /\ NoDup (recipient <$> result.2).
Proof.
  destruct (reliable_set_color_reaches_everyone transport_up noon 1
              red_request "red" 0 three_connected) as [Hlog Honce].
  - intros k c. reflexivity.
  - reflexivity.
  - reflexivity.
  - reflexivity.
  - by_evaluation.
  - split; [exact Hlog |]. apply Honce. by_evaluation.
Defined.

Lemma red_request_complete : complete red_request.
Proof.
  exists "color_change". split; [reflexivity |]. intros _. by eexists.
Qed.

Lemma closed_session_witness :
  exists m' t,
    websocket_endpoint transport_up accept_all noon 4 "dave"
      ((Text <$> [red_request]) ++ [Closed]) 0 three_connected
    = (Ret Finished, m', t)
    /\ (4 ∉ active_connections m')
    /\ active_connections m' `sublist_of` active_connections three_connected.
Proof.
  apply (closed_session_is_unregistered transport_up accept_all noon 4 "dave"
           [red_request] [] 0 three_connected).
  - reflexivity.
  - by_evaluation.
  - by_evaluation.
  - constructor; [exact red_request_complete | constructor].
Defined.

Lemma crashed_session_witness :
  exists e m' t,
    websocket_endpoint transport_up accept_all noon 1 "alice"
      ((Text <$> [red_request]) ++ [Garbage; Closed]) 0 init
    = (Raise e, m', t)
    /\ 1 ∈ active_connections m'
    /\ (controller init = None -> controller m' = Some 1).
Proof.
  apply (crashed_session_stays_registered transport_up accept_all noon 1
           "alice" [red_request] Garbage [Closed] 0 init).
  - reflexivity.
  - intros k. reflexivity.
  - constructor; [exact red_request_complete | constructor].
  - left. reflexivity.
Defined.

Lemma page_frames_witness :
  exists color,
    [("type", "color_change"); ("color", "green")]
    = [("type", "color_change"); ("color", color)]
    /\ recognised color
    /\ true = true
    /\ isController controller_page = true
    /\ (websocket_endpoint_receive transport_up noon 1
          [("type", "color_change"); ("color", "green")] 0
          three_connected).1.1 = Ret tt
    /\ current_color
         (websocket_endpoint_receive transport_up noon 1
            [("type", "color_change"); ("color", "green")] 0
            three_connected).1.2 = color.
Proof.
  apply (page_frames_are_accepted transport_up noon "3" "red" true
           controller_page _ 1 0 three_connected).
  - left. reflexivity.
  - reflexivity.
Defined.

Lemma pages_agree_witness :
  let result :=
    run transport_up accept_all noon
      (alice_bob_carol ++ [Receive 1 red_request; Disconnect 1]) 0 init in
  receive_log 2 result.2 fresh_page = page_of result.1 2.
Proof.
  apply (pages_agree_with_manager transport_up accept_all noon
           (alice_bob_carol ++ [Receive 1 red_request; Disconnect 1]) 0
           (fun _ => fresh_page) 2).
  - intros k x. reflexivity.
  - by_evaluation.
  - by_evaluation.
Defined.

Lemma color_survives_witness :
  current_color
    (run transport_up accept_all noon [Disconnect 2; Disconnect 3] 0
       alice_fell_off).1
  = "red".
Proof.
  apply (color_survives_membership_events transport_up accept_all noon
           [Disconnect 2; Disconnect 3] 0 alice_fell_off).
  repeat constructor.
Defined.

Lemma round_trip_witness :
  (run transport_up accept_all noon [Connect 4 "dave"; Disconnect 4] 0
     three_connected).1
  = three_connected.
Proof.
  apply (connect_disconnect_round_trip transport_up accept_all noon 4 "dave"
           0 three_connected).
  - by_evaluation.
  - split; [intros c [= <-]; by_evaluation | split; discriminate].
  - discriminate.
Defined.
